(** * git-cleanup: a shallow embedding of [src/index.js]

    The program is a command-line dispatcher around the [git] binary.  It is
    embedded as monadic code over an explicit history of observable events
    (external commands with their results, prompts with their answers, lines
    written to the console).  The surrounding world (the [git] binary, the
    terminal, the clock, the platform's date parser) is a record of oracles
    that may answer differently depending on what has happened so far.

    Conventions of the model:
    - JavaScript strings are byte strings; whitespace and letter case are the
      ASCII ones;
    - JavaScript numbers that occur in the program are integers or [NaN];
      integers are unbounded here, the program's are exact below [2^53];
    - the terminal answers every prompt with one line. *)

From Stdlib Require Import String Ascii List ZArith Lia Bool DecimalString.
From Stdlib Require Import Sorted Permutation.
Import ListNotations.

Local Open Scope string_scope.
Local Open Scope Z_scope.

(** ** JavaScript strings *)

Module JsString.

(** The ASCII part of the white space removed by [trim] and matched by [\s]. *)
Definition isWhite (c : ascii) : bool :=
  let n := nat_of_ascii c in
  (Nat.leb 9 n && Nat.leb n 13) || Nat.eqb n 32.

Fixpoint trimStart (s : string) : string :=
  match s with
  | String c r => if isWhite c then trimStart r else s
  | EmptyString => EmptyString
  end.

Fixpoint trimEnd (s : string) : string :=
  match s with
  | String c r =>
      match trimEnd r with
      | EmptyString => if isWhite c then EmptyString else String c EmptyString
      | r' => String c r'
      end
  | EmptyString => EmptyString
  end.

(** [s.trim()] *)
Definition trim (s : string) : string := trimEnd (trimStart s).

(** [s.split(sep)] for a separator of one character; never empty. *)
Fixpoint split (sep : ascii) (s : string) : list string :=
  match s with
  | EmptyString => [EmptyString]
  | String c r =>
      if Ascii.eqb c sep then EmptyString :: split sep r
      else match split sep r with
           | piece :: pieces => String c piece :: pieces
           | [] => [String c EmptyString]
           end
  end.

(** [s.split(/\s+/)]: the pieces between maximal runs of white space. *)
Fixpoint splitWhiteFrom (piece : string) (inRun : bool) (s : string) : list string :=
  match s with
  | EmptyString => [piece]
  | String c r =>
      if isWhite c
      then (if inRun then splitWhiteFrom piece true r
            else piece :: splitWhiteFrom EmptyString true r)
      else splitWhiteFrom (piece ++ String c EmptyString) false r
  end.

Definition splitWhite (s : string) : list string :=
  splitWhiteFrom EmptyString false s.

(** [pieces.join(sep)] *)
Fixpoint join (sep : string) (pieces : list string) : string :=
  match pieces with
  | [] => EmptyString
  | [p] => p
  | p :: rest => p ++ sep ++ join sep rest
  end.

(** [s.startsWith(p)] *)
Fixpoint startsWith (p s : string) : bool :=
  match p with
  | EmptyString => true
  | String a p' =>
      match s with
      | String b s' => Ascii.eqb a b && startsWith p' s'
      | EmptyString => false
      end
  end.

(** [s.includes(sub)] *)
Fixpoint includes (sub s : string) : bool :=
  startsWith sub s ||
  match s with
  | String _ r => includes sub r
  | EmptyString => false
  end.

Definition lowerChar (c : ascii) : ascii :=
  let n := nat_of_ascii c in
  if Nat.leb 65 n && Nat.leb n 90 then ascii_of_nat (n + 32) else c.

(** [s.toLowerCase()] *)
Fixpoint toLowerCase (s : string) : string :=
  match s with
  | String c r => String (lowerChar c) (toLowerCase r)
  | EmptyString => EmptyString
  end.

(** [s.replace(/^\* /, '')] *)
Definition dropStar (s : string) : string :=
  match s with
  | String "*" (String " " r) => r
  | _ => s
  end.

(** [s.padStart(n)] *)
Definition padStart (n : nat) (s : string) : string :=
  String.concat "" (repeat " " (n - String.length s)) ++ s.

(** A string is truthy when it is not empty. *)
Definition truthy (s : string) : bool := negb (String.eqb s EmptyString).

End JsString.

(** ** JavaScript numbers *)

Module JsNumber.

Inductive number : Type :=
| NaN
| Num (z : Z).

(** [a < b] and [a > b]: false as soon as one side is [NaN]. *)
Definition lt (a b : number) : bool :=
  match a, b with
  | Num x, Num y => x <? y
  | _, _ => false
  end.

Definition gt (a b : number) : bool := lt b a.

Definition sub (a b : number) : number :=
  match a, b with
  | Num x, Num y => Num (x - y)
  | _, _ => NaN
  end.

Definition mul (a b : number) : number :=
  match a, b with
  | Num x, Num y => Num (x * y)
  | _, _ => NaN
  end.

(** [Math.floor(a / b)] for a positive divisor. *)
Definition floorDiv (a b : number) : number :=
  match a, b with
  | Num x, Num y => Num (x / y)
  | _, _ => NaN
  end.

(** Template interpolation of a number. *)
Definition toString (a : number) : string :=
  match a with
  | NaN => "NaN"
  | Num z => NilZero.string_of_int (Z.to_int z)
  end.

Definition digit (c : ascii) : option Z :=
  let n := nat_of_ascii c in
  if Nat.leb 48 n && Nat.leb n 57 then Some (Z.of_nat (n - 48)) else None.

(** The value of the longest prefix of decimal digits, if there is one. *)
Fixpoint digits (s : string) (acc : option Z) : option Z :=
  match s with
  | String c r =>
      match digit c with
      | Some d =>
          digits r (Some (10 * match acc with Some a => a | None => 0 end + d))
      | None => acc
      end
  | EmptyString => acc
  end.

Definition ofDigits (sign : Z) (s : string) : number :=
  match digits s None with
  | Some v => Num (sign * v)
  | None => NaN
  end.

(** [parseInt(x, 10)]; [None] stands for [undefined]. *)
Definition parseInt (x : option string) : number :=
  match x with
  | None => NaN
  | Some s =>
      match JsString.trimStart s with
      | String "-" r => ofDigits (-1) r
      | String "+" r => ofDigits 1 r
      | s' => ofDigits 1 s'
      end
  end.

(** [(n / d).toFixed(1)] for [0 < n] and [d] a power of two: the quotient
    is exact, and the digit is rounded half up. *)
Definition toFixed1 (n d : Z) : string :=
  let tenths := (20 * n + d) / (2 * d) in
  NilZero.string_of_int (Z.to_int (tenths / 10)) ++ "." ++
  NilZero.string_of_int (Z.to_int (tenths mod 10)).

End JsNumber.

Import JsString JsNumber.

(** ** The world the program runs in *)

(** What [execSync] does with a command: the captured standard output, or an
    exception (non-zero exit status, missing binary, ...) with its message. *)
Inductive execResult : Type :=
| ExecOk (stdout : string)
| ExecError (message : string).

(** Observable events, oldest first in a history. *)
Inductive event : Type :=
| EvExec (cmd : string) (res : execResult)
| EvPrompt (question answer : string)
| EvLog (line : string)
| EvError (line : string).

Definition history : Type := list event.

Record World : Type := {
  (** the result of running a shell command *)
  execSync : history -> string -> execResult;
  (** the line typed in answer to a [readline] question *)
  readLine : history -> string -> string;
  (** [Date.now()], in milliseconds *)
  dateNow : history -> Z;
  (** [new Date(s).getTime()], [NaN] for an invalid date *)
  dateParse : string -> number
}.

(** ** Computations: history passing, exceptions and [process.exit] *)

Inductive outcome (A : Type) : Type :=
| Ok (a : A)
| Thrown (message : string)
| Exited (code : Z).

Arguments Ok {A} a.
Arguments Thrown {A} message.
Arguments Exited {A} code.

Definition M (A : Type) : Type := history -> outcome A * history.

Definition ret {A} (a : A) : M A := fun h => (Ok a, h).

Definition bind {A B} (m : M A) (k : A -> M B) : M B :=
  fun h =>
    match m h with
    | (Ok a, h') => k a h'
    | (Thrown msg, h') => (Thrown msg, h')
    | (Exited code, h') => (Exited code, h')
    end.

(** [try { m } catch (e) { handler(e) }]; [process.exit] is not an exception. *)
Definition tryCatch {A} (m : M A) (handler : string -> M A) : M A :=
  fun h =>
    match m h with
    | (Thrown msg, h') => handler msg h'
    | r => r
    end.

Definition emit (e : event) : M unit := fun h => (Ok tt, (h ++ [e])%list).

(** [console.log(line)] and [console.error(line)] *)
Definition log (line : string) : M unit := emit (EvLog line).
Definition logError (line : string) : M unit := emit (EvError line).

(** [process.exit(code)] *)
Definition exit {A} (code : Z) : M A := fun h => (Exited code, h).

Declare Scope js_scope.
Delimit Scope js_scope with js.
Notation "x <- m ;; k" := (bind m (fun x => k))
  (at level 61, m at next level, right associativity) : js_scope.
Notation "m ;; k" := (bind m (fun _ => k))
  (at level 61, right associativity) : js_scope.
Local Open Scope js_scope.

(** ** Formatting *)

Inductive color : Type :=
| reset | red | green | yellow | blue | magenta | cyan | dim | bold.

Definition esc : string := String "027"%char EmptyString.
Definition nl : string := String "010"%char EmptyString.

Definition COLORS (k : color) : string :=
  match k with
  | reset => esc ++ "[0m"
  | red => esc ++ "[31m"
  | green => esc ++ "[32m"
  | yellow => esc ++ "[33m"
  | blue => esc ++ "[34m"
  | magenta => esc ++ "[35m"
  | cyan => esc ++ "[36m"
  | dim => esc ++ "[2m"
  | bold => esc ++ "[1m"
  end.

Definition c (k : color) (text : string) : string :=
  COLORS k ++ text ++ COLORS reset.

Definition showNat (n : nat) : string := toString (Num (Z.of_nat n)).

(** ** Records of the data model *)

Record runOptions : Type := {
  silent : bool;        (* only selects how the child's streams are wired *)
  ignoreError : bool
}.

Record staleBranch : Type := {
  branch : string;
  daysAgo : number
}.

Record largeFile : Type := {
  hash : string;
  size : number;
  sizeStr : string;
  path : string
}.

Definition msPerDay : Z := 24 * 60 * 60 * 1000.

(** [list.sort(cmp)]: the stable sort, by insertion from the right. *)
Fixpoint sortInsert {A} (cmp : A -> A -> number) (x : A) (l : list A) : list A :=
  match l with
  | [] => [x]
  | y :: l' =>
      if gt (cmp x y) (Num 0) then y :: sortInsert cmp x l' else x :: l
  end.

Definition sort {A} (cmp : A -> A -> number) (l : list A) : list A :=
  fold_right (sortInsert cmp) [] l.

(** [args.indexOf(x)]; [None] stands for [-1]. *)
Fixpoint indexOf (x : string) (args : list string) : option nat :=
  match args with
  | [] => None
  | a :: rest =>
      if String.eqb a x then Some O
      else match indexOf x rest with
           | Some i => Some (S i)
           | None => None
           end
  end.

(** [args.includes(x)] *)
Definition argsInclude (x : string) (args : list string) : bool :=
  existsb (String.eqb x) args.

(** ** The program *)

Section Program.

Variable w : World.

Definition quiet : runOptions := {| silent := true; ignoreError := false |}.
Definition quietIgnore : runOptions := {| silent := true; ignoreError := true |}.
Definition noOptions : runOptions := {| silent := false; ignoreError := false |}.

(** [run(cmd, options)] *)
Definition run (cmd : string) (options : runOptions) : M string :=
  fun h =>
    match execSync w h cmd with
    | ExecOk out => (Ok (trim out), (h ++ [EvExec cmd (ExecOk out)])%list)
    | ExecError msg =>
        (if ignoreError options then Ok EmptyString else Thrown msg,
         (h ++ [EvExec cmd (ExecError msg)])%list)
    end.

(** [Date.now()] *)
Definition now : M number := fun h => (Ok (Num (dateNow w h)), h).

(** [isGitRepo()] *)
Definition isGitRepo : M bool :=
  tryCatch (run "git rev-parse --git-dir" quiet ;; ret true)
           (fun _ => ret false).

(** The lines of a branch listing, cleaned as in [getMergedBranches] and
    [getStaleBranches]: [.split('\n').map(b => b.trim().replace(/^\* /, ''))] *)
Definition branchLines (listing : string) : list string :=
  map (fun b => dropStar (trim b)) (split "010" listing).

(** [getDefaultBranch()] *)
Definition getDefaultBranch : M string :=
  fromRemote <-
    tryCatch
      (remotes <- run "git remote" quiet ;;
       let first := hd EmptyString (split "010" remotes) in
       let remote := if truthy first then first else "origin" in
       ref <- run ("git symbolic-ref refs/remotes/" ++ remote ++ "/HEAD") quietIgnore ;;
       if truthy ref
       then ret (Some (last (split "/" ref) EmptyString))
       else ret None)
      (fun _ => ret None) ;;
  match fromRemote with
  | Some name => ret name
  | None =>
      branches <- run "git branch -a" quiet ;;
      if includes "main" branches then ret "main"
      else if includes "master" branches then ret "master"
      else ret "main"
  end.

(** [getMergedBranches()] *)
Definition getMergedBranches : M (list string) :=
  current <- run "git branch --show-current" quiet ;;
  defaultBranch <- getDefaultBranch ;;
  listing <- run ("git branch --merged " ++ defaultBranch) quietIgnore ;;
  ret (filter
         (fun b => truthy b && negb (String.eqb b current)
                   && negb (String.eqb b defaultBranch)
                   && negb (startsWith "remotes/" b))
         (branchLines listing)).

(** The body of the loop of [getStaleBranches], with its [try]. *)
Definition staleStep (cutoff : number) (stale : list staleBranch) (b : string)
  : M (list staleBranch) :=
  tryCatch
    (dateStr <- run ("git log -1 --format=%ci " ++ b) quiet ;;
     let lastCommit := dateParse w dateStr in
     if lt lastCommit cutoff
     then
       t <- now ;;
       let days := floorDiv (sub t lastCommit) (Num msPerDay) in
       ret (stale ++ [{| branch := b; daysAgo := days |}])%list
     else ret stale)
    (fun _ => ret stale).

Fixpoint staleLoop (cutoff : number) (branches : list string)
                   (stale : list staleBranch) : M (list staleBranch) :=
  match branches with
  | [] => ret stale
  | b :: rest =>
      stale' <- staleStep cutoff stale b ;;
      staleLoop cutoff rest stale'
  end.

(** [getStaleBranches(days)] *)
Definition getStaleBranches (days : number) : M (list staleBranch) :=
  current <- run "git branch --show-current" quiet ;;
  defaultBranch <- getDefaultBranch ;;
  t <- now ;;
  let cutoff := sub t (mul days (Num msPerDay)) in
  listing <- run "git branch" quiet ;;
  let branches :=
    filter (fun b => truthy b && negb (String.eqb b current)
                     && negb (String.eqb b defaultBranch))
           (branchLines listing) in
  stale <- staleLoop cutoff branches [] ;;
  ret (sort (fun a b => sub (daysAgo b) (daysAgo a)) stale).

(** [getGoneBranches()] *)
Definition getGoneBranches : M (list string) :=
  run "git fetch --prune" quietIgnore ;;
  listing <- run "git branch -vv" quiet ;;
  ret (map (fun line => dropStar (hd EmptyString (splitWhite (trim line))))
           (filter (includes ": gone]") (split "010" listing))).

(** The object built from one line of the size listing. *)
Definition largeFileOfLine (line : string) : largeFile :=
  let parts := splitWhite line in
  let sizeNum := parseInt (nth_error parts 1) in
  {| hash := hd EmptyString parts;
     size := sizeNum;
     sizeStr :=
       if gt sizeNum (Num (1024 * 1024))
       then (match sizeNum with
             | Num n => toFixed1 n (1024 * 1024)
             | NaN => "NaN"
             end) ++ " MB"
       else if gt sizeNum (Num 1024)
       then (match sizeNum with
             | Num n => toFixed1 n 1024
             | NaN => "NaN"
             end) ++ " KB"
       else toString sizeNum ++ " B";
     path := join " " (skipn 2 parts) |}.

(** The command line of [getLargeFiles]. *)
Definition largeFilesPipeline (count : number) : string :=
  "git rev-list --objects --all | git cat-file --batch-check='%(objecttype) %(objectname) %(objectsize) %(rest)' | sed -n 's/^blob //p' | sort -rnk2 | head -"
  ++ toString count.

(** [getLargeFiles(count)] *)
Definition getLargeFiles (count : number) : M (list largeFile) :=
  tryCatch
    (result <- run (largeFilesPipeline count) quietIgnore ;;
     if truthy result
     then ret (map largeFileOfLine (filter truthy (split "010" result)))
     else ret [])
    (fun _ => ret []).

(** [deleteBranch(branch, force)] *)
Definition deleteBranch (b : string) (force : bool) : M bool :=
  let flag := if force then "-D" else "-d" in
  tryCatch (run ("git branch " ++ flag ++ " " ++ b) quiet ;; ret true)
           (fun _ => ret false).

(** What the callback of [confirm] resolves with. *)
Definition affirmative (answer : string) : bool :=
  startsWith "y" (toLowerCase answer).

(** [confirm(question)], awaited *)
Definition confirm (question : string) : M bool :=
  fun h =>
    let answer := readLine w h question in
    (Ok (affirmative answer), (h ++ [EvPrompt question answer])%list).

End Program.

Section Main.

Variable w : World.

(** [list.forEach(x => console.log(line(x)))] *)
Fixpoint logEach {A} (line : A -> string) (l : list A) : M unit :=
  match l with
  | [] => ret tt
  | x :: rest => log (line x) ;; logEach line rest
  end.

(** The [for] loops of lines 211-218, 242-249 and 271-278: one text, up to
    the second argument of [deleteBranch]. *)
Fixpoint deleteLoop (forceDelete : bool) (branches : list string) (deleted : nat)
  : M nat :=
  match branches with
  | [] => ret deleted
  | b :: rest =>
      ok <- deleteBranch w b forceDelete ;;
      if ok : bool
      then log ("   " ++ c green "✓" ++ " Deleted " ++ b) ;;
           deleteLoop forceDelete rest (S deleted)
      else log ("   " ++ c red "✗" ++ " Failed to delete " ++ b) ;;
           deleteLoop forceDelete rest deleted
  end.

Definition deletedLine (deleted attempted : nat) : string :=
  c green (nl ++ "   Deleted " ++ showNat deleted ++ "/" ++ showNat attempted
              ++ " branches" ++ nl).

Definition deleteQuestion (kind : string) (count : nat) : string :=
  "   Delete " ++ showNat count ++ " " ++ kind ++ " branch(es)? [y/N] ".

(** The [if (!dryRun) { ... }] blocks of lines 207-221, 238-252 and 267-281:
    one text, up to the word in the question and the second argument of
    [deleteBranch]. *)
Definition deletePhase (dryRun force : bool) (kind : string) (forceDelete : bool)
                       (branches : list string) : M unit :=
  if negb dryRun
  then
    shouldDelete <-
      (if force then ret true
       else confirm w (deleteQuestion kind (length branches))) ;;
    if shouldDelete : bool
    then
      deleted <- deleteLoop forceDelete branches 0 ;;
      log (deletedLine deleted (length branches))
    else ret tt
  else ret tt.

(** The body of [if (command === 'merged' || command === 'all')]. *)
Definition mergedTitle : string := c bold "📋 Merged Branches".

Definition mergedSection (dryRun force : bool) : M unit :=
  log mergedTitle ;;
  merged <- getMergedBranches w ;;
  if Nat.eqb (length merged) 0
  then log (c dim ("   No merged branches to clean up" ++ nl))
  else
    log (c dim ("   Found " ++ showNat (length merged) ++ " merged branch(es):" ++ nl)) ;;
    logEach (fun b => "   " ++ c yellow "•" ++ " " ++ b) merged ;;
    log EmptyString ;;
    deletePhase dryRun force "merged" false merged.

(** The body of [if (command === 'stale' || command === 'all')]. *)
Definition staleTitle (days : number) : string :=
  c bold ("📅 Stale Branches (>" ++ toString days ++ " days)").

Definition staleSection (dryRun force : bool) (days : number) : M unit :=
  log (staleTitle days) ;;
  stale <- getStaleBranches w days ;;
  if Nat.eqb (length stale) 0
  then log (c dim ("   No stale branches found" ++ nl))
  else
    log (c dim ("   Found " ++ showNat (length stale) ++ " stale branch(es):" ++ nl)) ;;
    logEach (fun s => "   " ++ c yellow "•" ++ " " ++ branch s ++ " "
                        ++ c dim ("(" ++ toString (daysAgo s) ++ " days ago)")) stale ;;
    log EmptyString ;;
    deletePhase dryRun force "stale" true (map branch stale).

(** The body of [if (command === 'gone' || command === 'all')]. *)
Definition goneTitle : string := c bold "👻 Gone Branches (remote deleted)".

Definition goneSection (dryRun force : bool) : M unit :=
  log goneTitle ;;
  gone <- getGoneBranches w ;;
  if Nat.eqb (length gone) 0
  then log (c dim ("   No gone branches found" ++ nl))
  else
    log (c dim ("   Found " ++ showNat (length gone) ++ " gone branch(es):" ++ nl)) ;;
    logEach (fun b => "   " ++ c yellow "•" ++ " " ++ b) gone ;;
    log EmptyString ;;
    deletePhase dryRun force "gone" true gone.

(** The body of [if (command === 'large' || command === 'all')]. *)
Definition largeSection (top : number) : M unit :=
  log (c bold ("📦 Large Files in History (top " ++ toString top ++ ")")) ;;
  large <- getLargeFiles w top ;;
  if Nat.eqb (length large) 0
  then log (c dim ("   No large files found" ++ nl))
  else
    log EmptyString ;;
    logEach (fun f =>
               let k := if includes "MB" (sizeStr f) then red else yellow in
               "   " ++ c k (padStart 10 (sizeStr f)) ++ "  " ++ path f) large ;;
    log (c dim (nl ++ "   Tip: Use 'git filter-repo' or BFG to remove large files from history" ++ nl)).

(** The body of [if (command === 'prune')]. *)
Definition pruneSection : M unit :=
  log (c bold "🔄 Pruning Remote Tracking Branches") ;;
  tryCatch
    (run w "git fetch --prune" noOptions ;;
     log (c green ("   ✓ Pruned remote tracking branches" ++ nl)))
    (fun message => log (c red ("   ✗ Failed to prune: " ++ message ++ nl))).

Definition helpText : string :=
  nl ++ c bold "git-cleanup" ++ " - Clean up your git repository" ++ nl
  ++ nl ++ c yellow "USAGE" ++ nl
  ++ "  git-cleanup <command> [options]" ++ nl
  ++ nl ++ c yellow "COMMANDS" ++ nl
  ++ "  " ++ c green "merged" ++ "      List and delete branches merged into main/master" ++ nl
  ++ "  " ++ c green "stale" ++ "       List and delete branches with no recent commits" ++ nl
  ++ "  " ++ c green "gone" ++ "        Delete branches whose remote tracking branch is gone" ++ nl
  ++ "  " ++ c green "large" ++ "       Find large files in git history" ++ nl
  ++ "  " ++ c green "all" ++ "         Run all cleanup checks" ++ nl
  ++ "  " ++ c green "prune" ++ "       Prune remote tracking branches" ++ nl
  ++ nl ++ c yellow "OPTIONS" ++ nl
  ++ "  --days <n>    Days threshold for stale branches (default: 30)" ++ nl
  ++ "  --dry-run     Show what would be deleted without deleting" ++ nl
  ++ "  --force       Delete without confirmation" ++ nl
  ++ "  --top <n>     Number of large files to show (default: 10)" ++ nl
  ++ nl ++ c yellow "EXAMPLES" ++ nl
  ++ "  git-cleanup merged           # Delete merged branches" ++ nl
  ++ "  git-cleanup stale --days 60  # Find branches inactive for 60+ days" ++ nl
  ++ "  git-cleanup large --top 20   # Show top 20 large files" ++ nl
  ++ "  git-cleanup all --dry-run    # Preview all cleanup actions" ++ nl.

(** [command === name] *)
Definition commandIs (command : option string) (name : string) : bool :=
  match command with
  | Some s => String.eqb s name
  | None => false
  end.

(** [command === '--help' || command === '-h' || !command] *)
Definition wantsHelp (command : option string) : bool :=
  commandIs command "--help" || commandIs command "-h" ||
  match command with
  | Some s => negb (truthy s)
  | None => true
  end.

(** [idx > -1 ? parseInt(args[idx + 1], 10) : fallback] *)
Definition numericOption (flag : string) (fallback : Z) (args : list string) : number :=
  match indexOf flag args with
  | Some idx => parseInt (nth_error args (idx + 1))
  | None => Num fallback
  end.

Definition when (b : bool) (m : M unit) : M unit :=
  if b then m else ret tt.

(** Lines 187-311 of [main]: what follows the repository check. *)
Definition cleanup (args : list string) : M unit :=
  let command := nth_error args 0 in
  let dryRun := argsInclude "--dry-run" args in
  let force := argsInclude "--force" args in
  let days := numericOption "--days" 30 args in
  let top := numericOption "--top" 10 args in
  log (c cyan (nl ++ "🧹 git-cleanup" ++ nl)) ;;
  when (commandIs command "merged" || commandIs command "all")
       (mergedSection dryRun force) ;;
  when (commandIs command "stale" || commandIs command "all")
       (staleSection dryRun force days) ;;
  when (commandIs command "gone" || commandIs command "all")
       (goneSection dryRun force) ;;
  when (commandIs command "large" || commandIs command "all")
       (largeSection top) ;;
  when (commandIs command "prune") pruneSection ;;
  log (c dim ("Done!" ++ nl)).

Definition notARepository : string := c red "Error: Not a git repository".

(** [main()], with [args = process.argv.slice(2)] *)
Definition main (args : list string) : M unit :=
  if wantsHelp (nth_error args 0)
  then log helpText
  else
    repo <- isGitRepo w ;;
    when (negb repo) (logError notARepository ;; exit 1) ;;
    cleanup args.

(** [main().catch(console.error)]: the exit status of the process and
    everything it did.  A rejected [main] is reported and the process still
    ends with status 0. *)
Definition program (args : list string) : Z * history :=
  match main args [] with
  | (Ok _, h) => (0, h)
  | (Thrown message, h) => (0, (h ++ [EvError message])%list)
  | (Exited code, h) => (code, h)
  end.

End Main.

(** ** Observations on histories *)

(** The command line built by [deleteBranch]. *)
Definition deleteCommand (force : bool) (b : string) : string :=
  "git branch " ++ (if force then "-D" else "-d") ++ " " ++ b.

(** Whether a command is a branch deletion, and then whether it is forced. *)
Definition deleteFlag (cmd : string) : option bool :=
  if startsWith "git branch -d " cmd then Some false
  else if startsWith "git branch -D " cmd then Some true
  else None.

Definition isDelete (e : event) : bool :=
  match e with
  | EvExec cmd _ => match deleteFlag cmd with Some _ => true | None => false end
  | _ => false
  end.

Definition isPrompt (e : event) : bool :=
  match e with
  | EvPrompt _ _ => true
  | _ => false
  end.

(** The deletions issued, in order. *)
Fixpoint deleteCalls (evs : list event) : list string :=
  match evs with
  | [] => []
  | e :: rest =>
      if isDelete e
      then match e with
           | EvExec cmd _ => cmd :: deleteCalls rest
           | _ => deleteCalls rest
           end
      else deleteCalls rest
  end.

(** The number of deletions that returned normally. *)
Fixpoint succeeded (evs : list event) : nat :=
  match evs with
  | [] => O
  | e :: rest =>
      match e with
      | EvExec _ (ExecOk _) => if isDelete e then S (succeeded rest) else succeeded rest
      | _ => succeeded rest
      end
  end.

(** A deletion that threw. *)
Definition deleteFailed (e : event) : bool :=
  match e with
  | EvExec _ (ExecError _) => isDelete e
  | _ => false
  end.

(** What a piece of the program may do: ask the user only if [prompts],
    delete only in the modes that [deletes] accepts. *)
Definition permits (prompts : bool) (deletes : bool -> bool) (e : event) : Prop :=
  match e with
  | EvExec cmd _ =>
      match deleteFlag cmd with
      | Some forced => deletes forced = true
      | None => True
      end
  | EvPrompt _ _ => prompts = true
  | _ => True
  end.

Definition noDeletes : bool -> bool := fun _ => false.

(** The calls whose failure no [try] and no [ignoreError] absorbs. *)
Definition unguarded : list string :=
  ["git branch --show-current"; "git branch -a"; "git branch"; "git branch -vv"].

Definition uncaught (message : string) (e : event) : Prop :=
  exists cmd, In cmd unguarded /\ e = EvExec cmd (ExecError message).

Definition anyFailure (message : string) (e : event) : Prop := True.

(** [sat P B m]: whatever the history, [m] only appends events, all of them
    in [P]; it never ends the process; and when it throws, one of the
    appended events is in [B] for the message thrown. *)
Definition sat {A} (P : event -> Prop) (B : string -> event -> Prop) (m : M A) : Prop :=
  forall h, exists evs,
    snd (m h) = (h ++ evs)%list /\ Forall P evs /\
    match fst (m h) with
    | Ok _ => True
    | Thrown message => Exists (B message) evs
    | Exited _ => False
    end.

(** What a deletion phase may do under the two flags, for the delete mode
    [mode] of its section. *)
Definition phasePolicy (dryRun force mode : bool) : event -> Prop :=
  permits (negb dryRun && negb force) (fun f => negb dryRun && Bool.eqb mode f).

(** What a whole run may do under the two flags. *)
Definition mainPolicy (dryRun force : bool) : event -> Prop :=
  permits (negb dryRun && negb force) (fun _ => negb dryRun).

Definition revParse : string := "git rev-parse --git-dir".

(** How the two flags and the answers decide whether a section deletes. *)
Definition decides (w : World) (dryRun force go : bool) : Prop :=
  (dryRun = true -> go = false) /\
  (dryRun = false -> force = true -> go = true) /\
  (dryRun = false -> (forall h q, affirmative (readLine w h q) = true) -> go = true).

(** ** Further observations *)

(** A prompt that the user accepted. *)
Definition accepted (e : event) : Prop :=
  match e with
  | EvPrompt _ answer => affirmative answer = true
  | _ => False
  end.

(** The commands executed, in order. *)
Definition commands (evs : list event) : list string :=
  flat_map (fun e => match e with
                     | EvExec cmd _ => [cmd]
                     | _ => []
                     end) evs.

(** The command line of the loop of [getStaleBranches]. *)
Definition logCommand (b : string) : string := "git log -1 --format=%ci " ++ b.

(** An entry whose age is a number. *)
Definition numericAge (s : staleBranch) : Prop :=
  exists z, daysAgo s = Num z.

(** [a] may stand before [b] in a list of decreasing age. *)
Definition olderFirst (a b : staleBranch) : Prop :=
  match daysAgo a, daysAgo b with
  | Num x, Num y => y <= x
  | _, _ => False
  end.

(** What one turn of a deletion loop appends, given the result of its call. *)
Definition attempt (mode : bool) (b : string) (res : execResult) : list event :=
  [EvExec (deleteCommand mode b) res;
   EvLog (match res with
          | ExecOk _ => "   " ++ c green "✓" ++ " Deleted " ++ b
          | ExecError _ => "   " ++ c red "✗" ++ " Failed to delete " ++ b
          end)].

(** The longest prefix without white space. *)
Fixpoint firstWord (s : string) : string :=
  match s with
  | String a r => if isWhite a then EmptyString else String a (firstWord r)
  | EmptyString => EmptyString
  end.

(** The questions asked, in order. *)
Definition questions (evs : list event) : list string :=
  flat_map (fun e => match e with
                     | EvPrompt question _ => [question]
                     | _ => []
                     end) evs.

Definition banner : string := c cyan (nl ++ "🧹 git-cleanup" ++ nl).
Definition doneLine : string := c dim ("Done!" ++ nl).
Definition pruneTitle : string := c bold "🔄 Pruning Remote Tracking Branches".

(** The text shared by the merged, stale and gone sections of [main]:
    title, enumeration, then either the line for an empty result or the
    list and the deletion phase. *)
Definition listingSection {A} (w : World) (title : string) (enum : M (list A))
           (none : string) (found : list A -> string) (line : A -> string)
           (kind : string) (mode : bool) (names : list A -> list string)
           (dryRun force : bool) : M unit :=
  (log title ;;
   items <- enum ;;
   if Nat.eqb (length items) 0
   then log none
   else log (found items) ;; logEach line items ;; log EmptyString ;;
        deletePhase w dryRun force kind mode (names items))%js.

(** No deletion without consent: a history that holds a deletion holds an
    accepted prompt. *)
Definition consented (evs : list event) : Prop :=
  deleteCalls evs <> [] -> Exists accepted evs.

(** Whether a character does not occur in a string. *)
Fixpoint lacks (a : ascii) (s : string) : bool :=
  match s with
  | String b r => negb (Ascii.eqb a b) && lacks a r
  | EmptyString => true
  end.



(** An event that is not the failure of an unguarded call. *)
Definition guardedEvent (e : event) : Prop :=
  match e with
  | EvExec cmd (ExecError _) => existsb (String.eqb cmd) unguarded = false
  | _ => True
  end.

Definition noThrow (message : string) (e : event) : Prop := False.

(** [halts m]: whatever the history, [m] only appends events and never ends
    the process.  When it returns, none of the events is the failure of an
    unguarded call.  When it throws, the last event is the failure of an
    unguarded call, with the message thrown, and no earlier one is. *)
Definition halts {A} (m : M A) : Prop :=
  forall h, exists evs,
    snd (m h) = (h ++ evs)%list /\
    match fst (m h) with
    | Ok _ => Forall guardedEvent evs
    | Thrown message =>
        exists pre cmd,
          evs = (pre ++ [EvExec cmd (ExecError message)])%list /\
          In cmd unguarded /\ Forall guardedEvent pre
    | Exited _ => False
    end.

(** [appending Q m]: whatever the history, [m] only appends events, and what
    it appends is in [Q]. *)
Definition appending {A} (Q : list event -> Prop) (m : M A) : Prop :=
  forall h, exists evs, snd (m h) = (h ++ evs)%list /\ Q evs.

(** ** The default branch as the specification words it *)

(** The first present value among: the branch named by the remote's symbolic
    reference, ["main"] when it is one of the branches, ["master"] when it is
    one of the branches; otherwise ["main"]. *)
Definition resolveDefaultBranch (remoteHead : option string) (branches : list string)
  : string :=
  match remoteHead with
  | Some name => name
  | None =>
      if existsb (String.eqb "main") branches then "main"
      else if existsb (String.eqb "master") branches then "master"
      else "main"
  end.

(** ** Scripted worlds, for running the program on concrete inputs *)

Module Demo.

Fixpoint lookup {V} (key : string) (table : list (string * V)) : option V :=
  match table with
  | [] => None
  | (k, v) :: rest => if String.eqb k key then Some v else lookup key rest
  end.

(** A world that answers from tables: a command that is not in the table
    fails, a date that is not in the table is invalid. *)
Definition scripted (commands : list (string * string)) (dates : list (string * Z))
                    (reply : string) (clock : Z) : World :=
  {| execSync := fun _ cmd =>
       match lookup cmd commands with
       | Some out => ExecOk out
       | None => ExecError ("Command failed: " ++ cmd)
       end;
     readLine := fun _ _ => reply;
     dateNow := fun _ => clock;
     dateParse := fun s =>
       match lookup s dates with
       | Some t => Num t
       | None => NaN
       end |}.

Definition listing : string :=
  "* dev" ++ nl ++ "  feature/a" ++ nl ++ "  feature/b" ++ nl ++ "  main" ++ nl.

Definition clock : Z := 1700000000000.

Definition dates : list (string * Z) :=
  [("2023-09-14 22:13:20 +0000", clock - 61 * msPerDay);
   ("2023-09-16 22:13:20 +0000", clock - 59 * msPerDay);
   ("2023-09-15 22:13:20 +0000", clock - 60 * msPerDay)].

Definition enumeration : list (string * string) :=
  [("git remote", "origin" ++ nl);
   ("git symbolic-ref refs/remotes/origin/HEAD", "refs/remotes/origin/main" ++ nl);
   ("git branch --merged main", listing);
   ("git branch", listing);
   ("git log -1 --format=%ci feature/a", "2023-09-14 22:13:20 +0000" ++ nl);
   ("git log -1 --format=%ci feature/b", "2023-09-16 22:13:20 +0000" ++ nl);
   ("git branch -vv",
    "* dev       1a2b3c4 [origin/dev] work" ++ nl ++
    "  feature/a 5d6e7f8 [origin/feature/a: gone] old" ++ nl);
   ("git branch -d feature/a", "Deleted branch feature/a (was 5d6e7f8).");
   ("git branch -d feature/b", "Deleted branch feature/b (was 9a8b7c6).");
   ("git branch -D feature/a", "Deleted branch feature/a (was 5d6e7f8).");
   ("git branch -D feature/b", "Deleted branch feature/b (was 9a8b7c6).")].

(** A repository on branch [dev] whose default branch is [main], with two
    merged feature branches, last committed 61 and 59 days ago. *)
Definition repo (reply : string) : World :=
  scripted (("git rev-parse --git-dir", ".git")
            :: ("git branch --show-current", "dev" ++ nl)
            :: enumeration) dates reply clock.

(** The same repository when [git branch --show-current] fails. *)
Definition brokenRepo : World :=
  scripted (("git rev-parse --git-dir", ".git") :: enumeration) dates "y" clock.

(** A repository without remote whose branches are [maintenance] and
    [master]. *)
Definition maintenanceListing : string :=
  "  maintenance" ++ nl ++ "* master" ++ nl.

Definition maintenanceRepo : World :=
  scripted [("git rev-parse --git-dir", ".git");
            ("git remote", EmptyString);
            ("git branch --show-current", "master" ++ nl);
            ("git branch -a", maintenanceListing)] [] "n" clock.

(** Not a repository: every command fails. *)
Definition nowhere : World := scripted [] [] EmptyString clock.

(** A repository where the date of [feature/b] cannot be read. *)
Definition undatedRepo : World :=
  scripted [("git branch --show-current", "dev");
            ("git branch -a", "main");
            ("git branch", listing);
            ("git log -1 --format=%ci feature/a", "2023-09-14 22:13:20 +0000");
            ("git log -1 --format=%ci feature/b", "yesterday")]
           dates "n" clock.


(** A repository whose current branch lost its upstream. *)
Definition goneRepo : World :=
  scripted [("git branch -vv",
             "* dev       1a2b3c4 [origin/dev: gone] work" ++ nl ++
             "  feature/a 5d6e7f8 [origin/feature/a: gone] old" ++ nl ++
             "  main      0f1e2d3 [origin/main] release" ++ nl)]
           [] "n" clock.

(** The repository of [repo] when one command always fails. *)
Definition without (cmd : string) : World :=
  scripted (filter (fun p => negb (String.eqb (fst p) cmd))
                   (("git rev-parse --git-dir", ".git")
                    :: ("git branch --show-current", "dev" ++ nl)
                    :: enumeration))
           dates "n" clock.

End Demo.

(** * Proofs *)

Local Open Scope list_scope.

(** ** Rules for [sat] *)

Section Rules.

Context {A B : Type}.
Variable P : event -> Prop.
Variable F : string -> event -> Prop.

Lemma sat_ret (a : A) : sat P F (ret a).
Proof.
  intros h. exists []. cbn. rewrite app_nil_r. auto.
Qed.

Lemma sat_bind (m : M A) (k : A -> M B) :
  sat P F m -> (forall a, sat P F (k a)) -> sat P F (bind m k).
Proof.
  intros Hm Hk h. unfold bind.
  destruct (Hm h) as (e1 & E1 & P1 & O1).
  destruct (m h) as [o h1]. cbn in E1, O1. subst h1.
  destruct o as [a | msg | code]; [ | | contradiction ].
  - destruct (Hk a (h ++ e1)) as (e2 & E2 & P2 & O2).
    exists (e1 ++ e2). rewrite E2, app_assoc. split; [reflexivity | ].
    split; [apply Forall_app; auto | ].
    destruct (fst (k a (h ++ e1))); auto.
    apply Exists_app; auto.
  - exists e1. cbn. auto.
Qed.

Lemma sat_tryCatch (F0 : string -> event -> Prop) (m : M A) (handler : string -> M A) :
  sat P F0 m -> (forall msg, sat P F (handler msg)) -> sat P F (tryCatch m handler).
Proof.
  intros Hm Hh h. unfold tryCatch.
  destruct (Hm h) as (e1 & E1 & P1 & O1).
  destruct (m h) as [o h1]. cbn in E1, O1. subst h1.
  destruct o as [a | msg | code]; [ | | contradiction ].
  - exists e1. cbn. auto.
  - destruct (Hh msg (h ++ e1)) as (e2 & E2 & P2 & O2).
    exists (e1 ++ e2). rewrite E2, app_assoc. split; [reflexivity | ].
    split; [apply Forall_app; auto | ].
    destruct (fst (handler msg (h ++ e1))); auto.
    apply Exists_app; auto.
Qed.

Lemma sat_emit (e : event) : P e -> sat P F (emit e).
Proof.
  intros He h. exists [e]. cbn. auto.
Qed.

Lemma sat_run (w : World) (cmd : string) (o : runOptions) :
  (forall res, P (EvExec cmd res)) ->
  (ignoreError o = false -> forall msg, F msg (EvExec cmd (ExecError msg))) ->
  sat P F (run w cmd o).
Proof.
  intros HP HF h. unfold run.
  destruct (execSync w h cmd) as [out | msg].
  - exists [EvExec cmd (ExecOk out)]. cbn. auto.
  - exists [EvExec cmd (ExecError msg)]. cbn.
    split; [reflexivity | split; [auto | ]].
    destruct (ignoreError o) eqn:Ei; cbn; auto.
Qed.

Lemma sat_now (w : World) : sat P F (now w).
Proof.
  intros h. exists []. cbn. rewrite app_nil_r. auto.
Qed.

Lemma sat_confirm (w : World) (q : string) :
  (forall a, P (EvPrompt q a)) -> sat P F (confirm w q).
Proof.
  intros HP h. exists [EvPrompt q (readLine w h q)]. cbn. auto.
Qed.

End Rules.

Lemma sat_weaken {A} (P P' : event -> Prop) (F F' : string -> event -> Prop) (m : M A) :
  (forall e, P e -> P' e) -> (forall msg e, F msg e -> F' msg e) ->
  sat P F m -> sat P' F' m.
Proof.
  intros HP HF Hm h. destruct (Hm h) as (evs & E & Pe & O).
  exists evs. split; [exact E | split].
  - eapply Forall_impl; eauto.
  - destruct (fst (m h)); auto.
    eapply Exists_impl; [ | exact O]. intros e. apply HF.
Qed.

Lemma permits_bottom prompts deletes e :
  permits false noDeletes e -> permits prompts deletes e.
Proof.
  destruct e as [cmd res | q a | l | l]; cbn; auto.
  - destruct (deleteFlag cmd); [discriminate | auto].
  - discriminate.
Qed.

(** ** What each function may do *)

Ltac sat_side :=
  match goal with
  | |- forall _, _ => intros; sat_side
  | |- _ -> _ => intros; sat_side
  | |- permits _ _ _ => cbn; solve [exact I | reflexivity | auto]
  | |- anyFailure _ _ => exact I
  | |- uncaught _ _ =>
      first [ discriminate
            | eexists; split; [ | reflexivity ]; cbn; tauto ]
  | H : ?x = false |- _ => solve [cbn in H; discriminate H]
  | |- _ => exact I
  end.

Ltac sat_step :=
  match goal with
  | |- sat _ _ (ret _) => apply sat_ret
  | |- sat _ _ (bind _ _) => apply sat_bind; [ | intros ? ]
  | |- sat _ _ (log _) => apply sat_emit; sat_side
  | |- sat _ _ (logError _) => apply sat_emit; sat_side
  | |- sat _ _ (emit _) => apply sat_emit; sat_side
  | |- sat _ _ (now _) => apply sat_now
  | |- sat _ _ (run _ _ _) => apply sat_run; sat_side
  | |- sat _ _ (tryCatch _ _) =>
      apply (sat_tryCatch _ _ anyFailure); [ | intros ? ]
  | |- sat _ _ (when ?b _) => destruct b; unfold when
  | |- sat _ _ (if ?b then _ else _) => destruct b
  | |- sat _ _ (match ?o with Some _ => _ | None => _ end) => destruct o
  end.

Ltac sat_auto := repeat sat_step.

Section Effects.

Variable w : World.
Lemma isGitRepo_sat F : sat (permits false noDeletes) F (isGitRepo w).
Proof. unfold isGitRepo. sat_auto. Qed.

Lemma getDefaultBranch_sat : sat (permits false noDeletes) uncaught (getDefaultBranch w).
Proof. unfold getDefaultBranch. sat_auto. Qed.

Lemma getMergedBranches_sat : sat (permits false noDeletes) uncaught (getMergedBranches w).
Proof.
  unfold getMergedBranches. sat_auto. apply getDefaultBranch_sat.
Qed.

Lemma staleStep_sat F cutoff stale b : sat (permits false noDeletes) F (staleStep w cutoff stale b).
Proof. unfold staleStep. sat_auto. Qed.

Lemma staleLoop_sat F cutoff branches :
  forall stale, sat (permits false noDeletes) F (staleLoop w cutoff branches stale).
Proof.
  induction branches as [ | b rest IH]; intros stale; cbn [staleLoop].
  - apply sat_ret.
  - apply sat_bind; [apply staleStep_sat | intros stale'; apply IH].
Qed.

Lemma getStaleBranches_sat days : sat (permits false noDeletes) uncaught (getStaleBranches w days).
Proof.
  unfold getStaleBranches. sat_auto.
  - apply getDefaultBranch_sat.
  - apply staleLoop_sat.
Qed.

Lemma getGoneBranches_sat : sat (permits false noDeletes) uncaught (getGoneBranches w).
Proof. unfold getGoneBranches. sat_auto. Qed.

Lemma getLargeFiles_sat F count : sat (permits false noDeletes) F (getLargeFiles w count).
Proof. unfold getLargeFiles. sat_auto. Qed.

End Effects.

(** ** Counting deletions in a history *)

Lemma deleteFlag_deleteCommand force b : deleteFlag (deleteCommand force b) = Some force.
Proof. destruct force; reflexivity. Qed.

Lemma deleteCalls_app e1 e2 : deleteCalls (e1 ++ e2) = deleteCalls e1 ++ deleteCalls e2.
Proof.
  induction e1 as [ | e rest IH]; cbn [deleteCalls app]; [reflexivity | ].
  destruct (isDelete e); [destruct e | ]; cbn; rewrite IH; reflexivity.
Qed.

Lemma succeeded_app e1 e2 : (succeeded (e1 ++ e2) = succeeded e1 + succeeded e2)%nat.
Proof.
  induction e1 as [ | e rest IH]; cbn [succeeded app]; [reflexivity | ].
  destruct e as [cmd [out | msg] | | | ]; try exact IH.
  destruct (isDelete _); [rewrite IH; reflexivity | exact IH].
Qed.

Lemma permits_isDelete prompts e : permits prompts noDeletes e -> isDelete e = false.
Proof.
  destruct e as [cmd res | | | ]; cbn; auto.
  destruct (deleteFlag cmd); [discriminate | reflexivity].
Qed.

Lemma permits_isPrompt deletes e : permits false deletes e -> isPrompt e = false.
Proof. destruct e; cbn; auto; discriminate. Qed.

Lemma quiet_deleteCalls prompts evs :
  Forall (permits prompts noDeletes) evs -> deleteCalls evs = [] /\ succeeded evs = O.
Proof.
  induction 1 as [ | e rest He _ [IHc IHs]]; [split; reflexivity | ].
  apply permits_isDelete in He. cbn [deleteCalls succeeded]. rewrite He.
  destruct e as [cmd [out | msg] | | | ]; auto.
Qed.

Lemma succeeded_le evs : (succeeded evs <= length (deleteCalls evs))%nat.
Proof.
  induction evs as [ | e rest IH]; cbn [succeeded deleteCalls]; [lia | ].
  destruct e as [cmd [out | msg] | | | ]; cbn [isDelete]; try exact IH;
    destruct (deleteFlag cmd); cbn [length]; lia.
Qed.

(** ** Deleting *)

Section Deleting.

Variable w : World.

Lemma deleteBranch_run b force h :
  deleteBranch w b force h =
    (Ok (match execSync w h (deleteCommand force b) with
         | ExecOk _ => true
         | ExecError _ => false
         end),
     h ++ [EvExec (deleteCommand force b) (execSync w h (deleteCommand force b))]).
Proof.
  unfold deleteBranch, tryCatch, bind, run, ret. fold (deleteCommand force b).
  destruct (execSync w h (deleteCommand force b)); reflexivity.
Qed.

Lemma deleteLoop_run force branches :
  forall deleted h, exists evs,
    deleteLoop w force branches deleted h = (Ok (deleted + succeeded evs)%nat, h ++ evs) /\
    deleteCalls evs = map (deleteCommand force) branches /\
    Forall (permits false (Bool.eqb force)) evs.
Proof.
  induction branches as [ | b rest IH]; intros deleted h; cbn [deleteLoop].
  - exists []. cbn. rewrite app_nil_r, Nat.add_0_r. auto.
  - unfold bind at 1. rewrite deleteBranch_run.
    set (cmd := deleteCommand force b).
    assert (Hd : isDelete (EvExec cmd (execSync w h cmd)) = true)
      by (cbn [isDelete]; unfold cmd; rewrite deleteFlag_deleteCommand; reflexivity).
    assert (Hp : forall res, permits false (Bool.eqb force) (EvExec cmd res))
      by (intros res; cbn [permits]; unfold cmd; rewrite deleteFlag_deleteCommand;
          apply Bool.eqb_reflx).
    destruct (execSync w h cmd) as [out | msg] eqn:Ex;
      unfold bind, log, emit;
      match goal with
      | |- context [deleteLoop w force rest ?d ?h'] =>
          destruct (IH d h') as (evs & E & Hc & Hf)
      end;
      rewrite E;
      match goal with
      | |- context [(h ++ [?e1]) ++ [?e2]] => exists (e1 :: e2 :: evs)
      end;
      (split; [ | split ]).
    + cbn [succeeded]. rewrite Hd. repeat rewrite <- app_assoc. cbn.
      f_equal. f_equal. lia.
    + cbn [deleteCalls]. rewrite Hd. cbn [isDelete deleteCalls map]. rewrite Hc.
      reflexivity.
    + repeat constructor; auto.
    + cbn [succeeded]. repeat rewrite <- app_assoc. reflexivity.
    + cbn [deleteCalls]. rewrite Hd. cbn [isDelete deleteCalls map]. rewrite Hc.
      reflexivity.
    + repeat constructor; auto.
Qed.

End Deleting.

Lemma permits_mono (p p' : bool) (d d' : bool -> bool) e :
  (p = true -> p' = true) -> (forall f, d f = true -> d' f = true) ->
  permits p d e -> permits p' d' e.
Proof.
  intros Hp Hd. destruct e as [cmd res | q a | l | l]; cbn; auto.
  destruct (deleteFlag cmd); auto.
Qed.

Section Sections.

Variable w : World.

Lemma logEach_run {A} (line : A -> string) (items : list A) :
  forall h, logEach line items h = (Ok tt, h ++ map (fun x => EvLog (line x)) items).
Proof.
  induction items as [ | x rest IH]; intros h; cbn [logEach map].
  - cbn. rewrite app_nil_r. reflexivity.
  - unfold bind, log, emit. rewrite IH, <- app_assoc. reflexivity.
Qed.

Lemma logEach_sat {A} P F (line : A -> string) (items : list A) :
  (forall l, P (EvLog l)) -> sat P F (logEach line items).
Proof.
  intros HP h. exists (map (fun x => EvLog (line x)) items).
  rewrite logEach_run. cbn. split; [reflexivity | split; [ | exact I]].
  apply Forall_forall. intros e He. apply in_map_iff in He.
  destruct He as (x & <- & _). apply HP.
Qed.

Lemma deleteLoop_sat F mode branches deleted :
  sat (permits false (Bool.eqb mode)) F (deleteLoop w mode branches deleted).
Proof.
  intros h. destruct (deleteLoop_run w mode branches deleted h) as (evs & E & _ & Hf).
  exists evs. rewrite E. cbn. auto.
Qed.

Lemma deletePhase_sat F dryRun force kind mode branches :
  sat (phasePolicy dryRun force mode) F (deletePhase w dryRun force kind mode branches).
Proof.
  unfold deletePhase, phasePolicy.
  destruct dryRun; cbn [negb andb]; [apply sat_ret | ].
  apply sat_bind.
  - destruct force; cbn [negb]; [apply sat_ret | ].
    apply sat_confirm. intros a. reflexivity.
  - intros [ | ]; [ | apply sat_ret].
    apply sat_bind.
    + eapply sat_weaken; [ | | apply deleteLoop_sat]; [ | intros ? ? H; exact H].
      intros e. apply permits_mono; [discriminate | auto].
    + intros deleted. apply sat_emit. exact I.
Qed.

Ltac section_sat enumerator_sat :=
  sat_auto;
  try (eapply sat_weaken; [ | | apply enumerator_sat];
       [intros e; apply permits_bottom | intros ? ? H; exact H]);
  try (apply logEach_sat; intros; exact I);
  try apply deletePhase_sat.

Lemma mergedSection_sat dryRun force :
  sat (phasePolicy dryRun force false) uncaught (mergedSection w dryRun force).
Proof. unfold mergedSection. section_sat getMergedBranches_sat. Qed.

Lemma staleSection_sat dryRun force days :
  sat (phasePolicy dryRun force true) uncaught (staleSection w dryRun force days).
Proof. unfold staleSection. section_sat getStaleBranches_sat. Qed.

Lemma goneSection_sat dryRun force :
  sat (phasePolicy dryRun force true) uncaught (goneSection w dryRun force).
Proof. unfold goneSection. section_sat getGoneBranches_sat. Qed.

Lemma largeSection_sat top :
  sat (permits false noDeletes) uncaught (largeSection w top).
Proof.
  unfold largeSection. sat_auto.
  - apply getLargeFiles_sat.
  - apply logEach_sat. intros; exact I.
Qed.

Lemma pruneSection_sat : sat (permits false noDeletes) uncaught (pruneSection w).
Proof. unfold pruneSection. sat_auto. Qed.

End Sections.

(** ** The whole run *)

Section Run.

Variable w : World.

Lemma phasePolicy_mainPolicy dryRun force mode e :
  phasePolicy dryRun force mode e -> mainPolicy dryRun force e.
Proof.
  apply permits_mono; [auto | ].
  intros f H. apply andb_prop in H. tauto.
Qed.

Lemma cleanup_sat args :
  sat (mainPolicy (argsInclude "--dry-run" args) (argsInclude "--force" args))
      uncaught (cleanup w args).
Proof.
  unfold cleanup. sat_auto.
  - eapply sat_weaken; [ | | apply mergedSection_sat];
      [apply phasePolicy_mainPolicy | auto].
  - eapply sat_weaken; [ | | apply staleSection_sat];
      [apply phasePolicy_mainPolicy | auto].
  - eapply sat_weaken; [ | | apply goneSection_sat];
      [apply phasePolicy_mainPolicy | auto].
  - eapply sat_weaken; [ | | apply largeSection_sat];
      [intros e; apply permits_bottom | auto].
  - eapply sat_weaken; [ | | apply pruneSection_sat];
      [intros e; apply permits_bottom | auto].
Qed.

Lemma main_help args h :
  wantsHelp (nth_error args 0) = true ->
  main w args h = (Ok tt, h ++ [EvLog helpText]).
Proof. intros H. unfold main. rewrite H. reflexivity. Qed.

Lemma main_outside args h message :
  wantsHelp (nth_error args 0) = false ->
  execSync w h revParse = ExecError message ->
  main w args h =
    (Exited 1, h ++ [EvExec revParse (ExecError message); EvError notARepository]).
Proof.
  intros H E. unfold main. rewrite H.
  unfold bind at 1. unfold isGitRepo, tryCatch, bind at 1, run.
  fold revParse. rewrite E. cbn. rewrite <- app_assoc. reflexivity.
Qed.

Lemma main_inside args h out :
  wantsHelp (nth_error args 0) = false ->
  execSync w h revParse = ExecOk out ->
  main w args h = cleanup w args (h ++ [EvExec revParse (ExecOk out)]).
Proof.
  intros H E. unfold main. rewrite H.
  unfold bind at 1. unfold isGitRepo, tryCatch, bind at 1, run.
  fold revParse. rewrite E. cbn. unfold bind at 1. cbn. reflexivity.
Qed.

(** Every run only appends events allowed by its flags; it throws only
    when an unguarded call failed. *)
Lemma main_events args h :
  exists evs,
    snd (main w args h) = h ++ evs /\
    Forall (mainPolicy (argsInclude "--dry-run" args) (argsInclude "--force" args)) evs /\
    match fst (main w args h) with
    | Ok _ => True
    | Thrown message => Exists (uncaught message) evs
    | Exited code => code = 1 /\ exists message, execSync w h revParse = ExecError message
    end.
Proof.
  destruct (wantsHelp (nth_error args 0)) eqn:Hh.
  - rewrite main_help by exact Hh. exists [EvLog helpText]. cbn.
    repeat split; auto. repeat constructor.
  - destruct (execSync w h revParse) as [out | message] eqn:E.
    + rewrite (main_inside _ _ _ Hh E).
      destruct (cleanup_sat args (h ++ [EvExec revParse (ExecOk out)]))
        as (evs & Es & Pe & O).
      exists (EvExec revParse (ExecOk out) :: evs).
      rewrite Es, <- app_assoc. split; [reflexivity | ].
      split; [constructor; [exact I | exact Pe] | ].
      destruct (fst (cleanup w args _)); [exact I | | contradiction].
      apply Exists_cons_tl. exact O.
    + rewrite (main_outside _ _ _ Hh E).
      exists [EvExec revParse (ExecError message); EvError notARepository]. cbn.
      repeat split; eauto. repeat constructor.
Qed.

End Run.

(** ** Confirmation *)

Lemma lowerChar_y (a : ascii) :
  Ascii.eqb "y" (lowerChar a) = true <-> a = "y"%char \/ a = "Y"%char.
Proof.
  destruct a as [[] [] [] [] [] [] [] []]; vm_compute;
    split; intros H; try discriminate H; auto;
    destruct H as [H | H]; discriminate H.
Qed.

(** C7.  The confirmation predicate accepts an answer exactly when its first
    character is [y] or [Y]; [confirm] resolves with that predicate applied
    to the line read.  So ["y"] and ["Yes"] are accepted and the empty line
    is rejected. *)
Theorem confirm_accepts_leading_y :
  (forall answer,
      affirmative answer = true <->
      exists rest, answer = String "y" rest \/ answer = String "Y" rest) /\
  (forall w question h,
      fst (confirm w question h) = Ok (affirmative (readLine w h question))) /\
  affirmative "y" = true /\
  affirmative "Yes" = true /\
  affirmative EmptyString = false.
Proof.
  split; [ | repeat split].
  intros [ | a rest]; unfold affirmative; cbn [toLowerCase startsWith].
  - split; [discriminate | intros (r & [H | H]); discriminate H].
  - rewrite andb_true_r, lowerChar_y. split.
    + intros [-> | ->]; exists rest; auto.
    + intros (r & [H | H]); injection H as -> _; auto.
Qed.

(** ** Exit status *)

Lemma wantsHelp_spec args :
  wantsHelp (nth_error args 0) = true <->
  args = [] \/
  exists rest, args = "--help"%string :: rest \/ args = "-h"%string :: rest
               \/ args = EmptyString :: rest.
Proof.
  destruct args as [ | a rest]; cbn.
  - split; auto.
  - unfold wantsHelp, commandIs, truthy. rewrite negb_involutive.
    rewrite !orb_true_iff, !String.eqb_eq. split.
    + intros [[-> | ->] | ->]; right; exists rest; auto.
    + intros [H | (r & [H | [H | H]])]; [discriminate H | | | ];
        injection H as -> _; auto.
Qed.

(** C9.  The exit status is 0 when help is shown (no command, an empty
    command, [--help] or [-h] in first position), 1 when any other command is
    run where [git rev-parse --git-dir] fails, and 0 in every other run,
    whether [main] returns or is rejected. *)
Theorem exit_status (w : World) (args : list string) :
  fst (program w args) =
    (if wantsHelp (nth_error args 0) then 0
     else match execSync w [] revParse with
          | ExecOk _ => 0
          | ExecError _ => 1
          end) /\
  (wantsHelp (nth_error args 0) = true <->
   args = [] \/
   exists rest, args = "--help"%string :: rest \/ args = "-h"%string :: rest
                \/ args = EmptyString :: rest).
Proof.
  split; [ | apply wantsHelp_spec].
  unfold program.
  destruct (wantsHelp (nth_error args 0)) eqn:Hh.
  - rewrite main_help by exact Hh. reflexivity.
  - destruct (execSync w [] revParse) as [out | message] eqn:E.
    + destruct (main_events w args []) as (evs & _ & _ & O).
      destruct (main w args []) as [[u | msg | code] h]; cbn in *; try reflexivity.
      destruct O as (_ & m & Hm). rewrite E in Hm. discriminate Hm.
    + rewrite (main_outside _ _ _ _ Hh E). reflexivity.
Qed.

(** ** Dry run *)

Lemma program_events (w : World) (args : list string) :
  Forall (mainPolicy (argsInclude "--dry-run" args) (argsInclude "--force" args))
         (snd (program w args)).
Proof.
  unfold program.
  destruct (main_events w args []) as (evs & E & Pe & _).
  destruct (main w args []) as [[u | msg | code] h]; cbn in *; subst h; auto.
  apply Forall_app. split; [exact Pe | repeat constructor].
Qed.

Lemma argsInclude_In x args : In x args -> argsInclude x args = true.
Proof.
  intros H. unfold argsInclude. apply existsb_exists.
  exists x. split; [exact H | apply String.eqb_refl].
Qed.

(** C5.  With [--dry-run] among the arguments no branch deletion is ever
    executed, whatever the command, the other flags, the repository and the
    answers typed; the deletion phase of every section does nothing. *)
Theorem dry_run_never_deletes (w : World) (args : list string) :
  In "--dry-run"%string args ->
  Forall (fun e => isDelete e = false) (snd (program w args)) /\
  (forall force kind mode branches h,
      deletePhase w true force kind mode branches h = (Ok tt, h)).
Proof.
  intros Hd. split; [ | reflexivity].
  apply argsInclude_In in Hd.
  generalize (program_events w args). rewrite Hd.
  apply Forall_impl. intros e He.
  destruct e as [cmd res | | | ]; cbn in *; auto.
  destruct (deleteFlag cmd); [discriminate He | reflexivity].
Qed.

Lemma dry_run_never_deletes_witness :
  Forall (fun e => isDelete e = false)
         (snd (program (Demo.repo "y") ["all"; "--force"; "--dry-run"]%string)).
Proof.
  apply (dry_run_never_deletes (Demo.repo "y") ["all"; "--force"; "--dry-run"]%string).
  cbn. auto.
Defined.

(** ** What a section deletes *)

Section Phases.

Variable w : World.

Lemma deletePhase_run dryRun force kind mode branches h :
  exists evs,
    deletePhase w dryRun force kind mode branches h = (Ok tt, h ++ evs) /\
    if negb dryRun &&
       (force || affirmative (readLine w h (deleteQuestion kind (length branches))))
    then deleteCalls evs = map (deleteCommand mode) branches /\
         exists before,
           evs = before ++ [EvLog (deletedLine (succeeded evs) (length branches))]
    else deleteCalls evs = [] /\ succeeded evs = O.
Proof.
  unfold deletePhase. destruct dryRun; cbn [negb andb].
  { exists []. cbn. rewrite app_nil_r. auto. }
  destruct force; cbn [orb].
  - unfold bind at 1, ret. unfold bind, log, emit.
    destruct (deleteLoop_run w mode branches O h) as (evs & E & Hc & _).
    rewrite E. cbn [Nat.add].
    exists (evs ++ [EvLog (deletedLine (succeeded evs) (length branches))]).
    rewrite app_assoc. split; [reflexivity | ].
    rewrite deleteCalls_app, succeeded_app. cbn. rewrite app_nil_r, Nat.add_0_r.
    split; [exact Hc | exists evs; reflexivity].
  - unfold bind at 1, confirm.
    set (q := deleteQuestion kind (length branches)).
    destruct (affirmative (readLine w h q)).
    + unfold bind, log, emit.
      destruct (deleteLoop_run w mode branches O (h ++ [EvPrompt q (readLine w h q)]))
        as (evs & E & Hc & _).
      rewrite E. cbn [Nat.add].
      exists (EvPrompt q (readLine w h q)
                :: evs ++ [EvLog (deletedLine (succeeded evs) (length branches))]).
      split; [repeat rewrite <- app_assoc; reflexivity | ].
      cbn [deleteCalls succeeded isDelete].
      rewrite deleteCalls_app, succeeded_app. cbn. rewrite app_nil_r, Nat.add_0_r.
      split; [exact Hc | ].
      exists (EvPrompt q (readLine w h q) :: evs). reflexivity.
    + exists [EvPrompt q (readLine w h q)]. cbn. auto.
Qed.

Lemma section_run {A} (title : string) (enum : M (list A)) (none : string)
      (found : list A -> string) (line : A -> string) (kind : string)
      (mode : bool) (names : list A -> list string) dryRun force h items h1 :
  sat (permits false noDeletes) uncaught enum ->
  enum (h ++ [EvLog title]) = (Ok items, h1) ->
  names [] = [] ->
  exists evs go,
    (log title ;;
     items <- enum ;;
     if Nat.eqb (length items) 0
     then log none
     else log (found items) ;; logEach line items ;; log EmptyString ;;
          deletePhase w dryRun force kind mode (names items))%js h
    = (Ok tt, h ++ evs) /\
    decides w dryRun force go /\
    if go
    then deleteCalls evs = map (deleteCommand mode) (names items) /\
         (items <> [] ->
          In (EvLog (deletedLine (succeeded evs) (length (names items)))) evs)
    else deleteCalls evs = [] /\ succeeded evs = O.
Proof.
  intros Hsat He Hn.
  destruct (Hsat (h ++ [EvLog title])) as (e1 & E1 & Q1 & _).
  rewrite He in E1. cbn in E1. subst h1.
  destruct (quiet_deleteCalls _ _ Q1) as [C1 S1].
  unfold bind at 1, log at 1, emit. unfold bind at 1. rewrite He.
  destruct items as [ | x rest]; cbn [length Nat.eqb].
  - exists (EvLog title :: e1 ++ [EvLog none]), (negb dryRun).
    split; [unfold log, emit; repeat rewrite <- app_assoc; reflexivity | ].
    split.
    { repeat split; intros; subst; try reflexivity. }
    cbn [deleteCalls succeeded isDelete].
    rewrite deleteCalls_app, succeeded_app, C1, S1, Hn. cbn.
    destruct (negb dryRun); split; auto. intros H; contradiction H; reflexivity.
  - set (items := x :: rest).
    unfold bind at 1, log at 1, emit. unfold bind at 1. rewrite logEach_run.
    unfold bind at 1, log at 1, emit.
    match goal with
    | |- context [deletePhase w dryRun force kind mode (names items) ?h'] =>
        destruct (deletePhase_run dryRun force kind mode (names items) h')
          as (e2 & E2 & H2);
        set (hq := h') in *
    end.
    rewrite E2.
    exists (EvLog title :: e1 ++ EvLog (found items)
              :: map (fun y => EvLog (line y)) items ++ EvLog EmptyString :: e2).
    exists (negb dryRun &&
            (force || affirmative
                        (readLine w hq (deleteQuestion kind (length (names items)))))).
    split.
    { unfold hq. repeat (rewrite <- app_assoc; cbn [app]). reflexivity. }
    split.
    { repeat split.
      - intros ->. reflexivity.
      - intros -> ->. reflexivity.
      - intros -> Hy. rewrite Hy. apply orb_true_r. }
    assert (Hlogs : forall l : list A,
               deleteCalls (map (fun y => EvLog (line y)) l) = [] /\
               succeeded (map (fun y => EvLog (line y)) l) = O)
      by (induction l; cbn; auto).
    destruct (Hlogs items) as [C3 S3].
    cbn [deleteCalls succeeded isDelete].
    rewrite deleteCalls_app, succeeded_app, C1, S1.
    cbn [deleteCalls succeeded isDelete app Nat.add].
    rewrite deleteCalls_app, succeeded_app, C3, S3.
    cbn [deleteCalls succeeded isDelete app Nat.add].
    destruct (negb dryRun && _).
    + destruct H2 as (Hc & before & Hb). split; [exact Hc | ].
      intros _.
      assert (Hin : In (EvLog (deletedLine (succeeded e2) (length (names items)))) e2).
      { remember (EvLog (deletedLine (succeeded e2) (length (names items)))) as r.
        rewrite Hb. apply in_or_app. right. left. reflexivity. }
      right. apply in_or_app. right. right.
      apply in_or_app. right. right. exact Hin.
    + exact H2.
Qed.

Lemma mergedSection_run dryRun force h merged h1 :
  getMergedBranches w (h ++ [EvLog mergedTitle]) = (Ok merged, h1) ->
  exists evs go,
    mergedSection w dryRun force h = (Ok tt, h ++ evs) /\
    decides w dryRun force go /\
    if go
    then deleteCalls evs = map (deleteCommand false) merged /\
         (merged <> [] ->
          In (EvLog (deletedLine (succeeded evs) (length merged))) evs)
    else deleteCalls evs = [] /\ succeeded evs = O.
Proof.
  intros He.
  apply (section_run mergedTitle (getMergedBranches w) _ _ _ "merged" false
                     (fun l => l) dryRun force h merged h1);
    [apply getMergedBranches_sat | exact He | reflexivity].
Qed.

Lemma staleSection_run dryRun force days h stale h1 :
  getStaleBranches w days (h ++ [EvLog (staleTitle days)]) = (Ok stale, h1) ->
  exists evs go,
    staleSection w dryRun force days h = (Ok tt, h ++ evs) /\
    decides w dryRun force go /\
    if go
    then deleteCalls evs = map (deleteCommand true) (map branch stale) /\
         (stale <> [] ->
          In (EvLog (deletedLine (succeeded evs) (length (map branch stale)))) evs)
    else deleteCalls evs = [] /\ succeeded evs = O.
Proof.
  intros He.
  apply (section_run (staleTitle days) (getStaleBranches w days) _ _ _ "stale" true
                     (map branch) dryRun force h stale h1);
    [apply getStaleBranches_sat | exact He | reflexivity].
Qed.

Lemma goneSection_run dryRun force h gone h1 :
  getGoneBranches w (h ++ [EvLog goneTitle]) = (Ok gone, h1) ->
  exists evs go,
    goneSection w dryRun force h = (Ok tt, h ++ evs) /\
    decides w dryRun force go /\
    if go
    then deleteCalls evs = map (deleteCommand true) gone /\
         (gone <> [] ->
          In (EvLog (deletedLine (succeeded evs) (length gone))) evs)
    else deleteCalls evs = [] /\ succeeded evs = O.
Proof.
  intros He.
  apply (section_run goneTitle (getGoneBranches w) _ _ _ "gone" true
                     (fun l => l) dryRun force h gone h1);
    [apply getGoneBranches_sat | exact He | reflexivity].
Qed.

End Phases.

(** ** Reported counts *)

Lemma succeeded_all evs :
  Forall (fun e => deleteFailed e = false) evs ->
  succeeded evs = length (deleteCalls evs).
Proof.
  induction 1 as [ | e rest He _ IH]; [reflexivity | ].
  cbn [succeeded deleteCalls].
  destruct e as [cmd [out | msg] | | | ]; cbn [deleteFailed] in He;
    try exact IH.
  - destruct (isDelete _); cbn [length]; congruence.
  - rewrite He. exact IH.
Qed.

Lemma cleanup_merged_force (w : World) :
  cleanup w ["merged"; "--force"]%string =
    (log (c cyan (nl ++ "🧹 git-cleanup" ++ nl)%string) ;;
     mergedSection w false true ;;
     log (c dim ("Done!" ++ nl)%string))%js.
Proof. reflexivity. Qed.

(** C4.  Every deletion loop attempts each branch once and returns the number
    of attempts that succeeded, which is at most the number of branches; a
    deletion phase that deletes ends by printing that number over the number
    of branches.  In the scenario (merged branches [feature/a] and
    [feature/b], as [getMergedBranches] computes them from the current branch
    and the default branch) the command [merged --force] executes exactly
    [git branch -d feature/a] and [git branch -d feature/b] and prints
    "Deleted k/2 branches", k the number of successes: "Deleted 2/2 branches"
    when no deletion failed. *)
Theorem deleted_count_reported (w : World) :
  (forall mode branches h, exists evs,
      deleteLoop w mode branches 0 h = (Ok (succeeded evs), h ++ evs) /\
      deleteCalls evs = map (deleteCommand mode) branches /\
      (succeeded evs <= length branches)%nat) /\
  (forall dryRun force kind mode branches h, exists evs,
      deletePhase w dryRun force kind mode branches h = (Ok tt, h ++ evs) /\
      (succeeded evs <= length branches)%nat /\
      (deleteCalls evs = [] \/
       deleteCalls evs = map (deleteCommand mode) branches /\
       exists before,
         evs = before ++ [EvLog (deletedLine (succeeded evs) (length branches))])) /\
  ((exists out, execSync w [] revParse = ExecOk out) ->
   (forall h, exists h',
       getMergedBranches w h = (Ok ["feature/a"; "feature/b"]%string, h')) ->
   let trace := snd (program w ["merged"; "--force"]%string) in
   deleteCalls trace = ["git branch -d feature/a"; "git branch -d feature/b"]%string /\
   In (EvLog (c green (nl ++ "   Deleted " ++ showNat (succeeded trace)
                          ++ "/2 branches" ++ nl)%string)) trace /\
   (Forall (fun e => deleteFailed e = false) trace ->
    In (EvLog (c green (nl ++ "   Deleted 2/2 branches" ++ nl)%string)) trace)).
Proof.
  split; [ | split].
  - intros mode branches h.
    destruct (deleteLoop_run w mode branches O h) as (evs & E & Hc & _).
    exists evs. split; [exact E | split; [exact Hc | ]].
    rewrite <- (length_map (deleteCommand mode) branches), <- Hc.
    apply succeeded_le.
  - intros dryRun force kind mode branches h.
    destruct (deletePhase_run w dryRun force kind mode branches h) as (evs & E & H).
    exists evs. split; [exact E | ].
    destruct (negb dryRun && _).
    + destruct H as (Hc & Hb). split; [ | right; auto].
      rewrite <- (length_map (deleteCommand mode) branches), <- Hc.
      apply succeeded_le.
    + destruct H as (Hc & Hs). rewrite Hs. split; [lia | left; exact Hc].
  - intros (out & Hrepo) Hm trace.
    assert (Ht : exists evs,
               trace = EvExec revParse (ExecOk out)
                       :: EvLog (c cyan (nl ++ "🧹 git-cleanup" ++ nl)%string)
                       :: evs ++ [EvLog (c dim ("Done!" ++ nl)%string)] /\
               deleteCalls evs = ["git branch -d feature/a"; "git branch -d feature/b"]%string /\
               In (EvLog (deletedLine (succeeded evs) 2)) evs).
    { unfold trace, program.
      rewrite (main_inside w ["merged"; "--force"]%string [] out eq_refl Hrepo),
        cleanup_merged_force.
      unfold bind at 1, log at 1, emit. unfold bind at 1.
      match goal with
      | |- context [mergedSection w false true ?h0] =>
          destruct (Hm (h0 ++ [EvLog mergedTitle])) as (h1 & Hg);
          destruct (mergedSection_run w false true h0 _ h1 Hg)
            as (evs & go & E & (_ & Hgo & _) & H)
      end.
      rewrite (Hgo eq_refl eq_refl) in H. destruct H as (Hc & Hr).
      rewrite E. exists evs. split; [reflexivity | split; [exact Hc | ]].
      apply Hr. discriminate. }
    destruct Ht as (evs & -> & Hc & Hr).
    assert (Hs : succeeded
                   (EvExec revParse (ExecOk out)
                    :: EvLog (c cyan (nl ++ "🧹 git-cleanup" ++ nl)%string)
                    :: evs ++ [EvLog (c dim ("Done!" ++ nl)%string)]) = succeeded evs).
    { cbn [succeeded isDelete]. rewrite succeeded_app.
      cbn [succeeded]. change (deleteFlag revParse) with (@None bool).
      cbn iota. lia. }
    assert (Hd : deleteCalls
                   (EvExec revParse (ExecOk out)
                    :: EvLog (c cyan (nl ++ "🧹 git-cleanup" ++ nl)%string)
                    :: evs ++ [EvLog (c dim ("Done!" ++ nl)%string)]) = deleteCalls evs).
    { cbn [deleteCalls isDelete]. change (deleteFlag revParse) with (@None bool).
      cbn iota. rewrite deleteCalls_app. cbn. apply app_nil_r. }
    assert (Hin : In (EvLog (deletedLine (succeeded evs) 2))
                     (EvExec revParse (ExecOk out)
                      :: EvLog (c cyan (nl ++ "🧹 git-cleanup" ++ nl)%string)
                      :: evs ++ [EvLog (c dim ("Done!" ++ nl)%string)])).
    { right. right. apply in_or_app. left. exact Hr. }
    split; [rewrite Hd; exact Hc | split].
    + rewrite Hs. exact Hin.
    + intros Hok. apply succeeded_all in Hok. rewrite Hs, Hd, Hc in Hok.
      rewrite Hok in Hin. exact Hin.
Qed.

Lemma deleted_count_reported_witness :
  let trace := snd (program (Demo.repo "n") ["merged"; "--force"]%string) in
  deleteCalls trace = ["git branch -d feature/a"; "git branch -d feature/b"]%string /\
  In (EvLog (c green (nl ++ "   Deleted 2/2 branches" ++ nl)%string)) trace.
Proof.
  destruct (deleted_count_reported (Demo.repo "n")) as (_ & _ & H).
  destruct H as (Hc & _ & H2).
  - exists ".git"%string. reflexivity.
  - intros h. eexists. reflexivity.
  - split; [exact Hc | ]. apply H2. vm_compute. repeat constructor.
Defined.

(** ** Force and delete modes *)

Lemma sat_events {A} P F (m : M A) h o evs :
  sat P F m -> m h = (o, h ++ evs) -> Forall P evs.
Proof.
  intros Hs E. destruct (Hs h) as (evs' & E' & Pe & _).
  rewrite E in E'. cbn in E'. apply app_inv_head in E'. subst evs'. exact Pe.
Qed.

Lemma phasePolicy_noPrompt dryRun mode e :
  phasePolicy dryRun true mode e -> isPrompt e = false.
Proof.
  unfold phasePolicy. rewrite andb_false_r. apply permits_isPrompt.
Qed.

Lemma deleteCommand_soft : deleteCommand false = (fun b => "git branch -d " ++ b)%string.
Proof. reflexivity. Qed.

Lemma deleteCommand_forced : deleteCommand true = (fun b => "git branch -D " ++ b)%string.
Proof. reflexivity. Qed.

(** C8.  With [--force] among the arguments the user is never prompted.
    With force set and dry-run unset, each section whose enumeration returns
    executes a deletion for every branch found, in order, without a prompt;
    its deletion phase is the loop and the report, nothing else. *)
Theorem force_skips_prompt (w : World) :
  (forall args,
      In "--force"%string args ->
      Forall (fun e => isPrompt e = false) (snd (program w args))) /\
  (forall kind mode branches,
      deletePhase w false true kind mode branches =
        (deleted <- deleteLoop w mode branches 0 ;;
         log (deletedLine deleted (length branches)))%js) /\
  (forall h merged h1,
      getMergedBranches w (h ++ [EvLog mergedTitle]) = (Ok merged, h1) ->
      exists evs,
        mergedSection w false true h = (Ok tt, h ++ evs) /\
        Forall (fun e => isPrompt e = false) evs /\
        deleteCalls evs = map (fun b => "git branch -d " ++ b)%string merged) /\
  (forall h days stale h1,
      getStaleBranches w days (h ++ [EvLog (staleTitle days)]) = (Ok stale, h1) ->
      exists evs,
        staleSection w false true days h = (Ok tt, h ++ evs) /\
        Forall (fun e => isPrompt e = false) evs /\
        deleteCalls evs = map (fun s => "git branch -D " ++ branch s)%string stale) /\
  (forall h gone h1,
      getGoneBranches w (h ++ [EvLog goneTitle]) = (Ok gone, h1) ->
      exists evs,
        goneSection w false true h = (Ok tt, h ++ evs) /\
        Forall (fun e => isPrompt e = false) evs /\
        deleteCalls evs = map (fun b => "git branch -D " ++ b)%string gone).
Proof.
  split; [ | split; [reflexivity | split; [ | split]]].
  - intros args Hf. apply argsInclude_In in Hf.
    generalize (program_events w args). rewrite Hf.
    apply Forall_impl. intros e. unfold mainPolicy. rewrite andb_false_r.
    apply permits_isPrompt.
  - intros h merged h1 He.
    destruct (mergedSection_run w false true h merged h1 He)
      as (evs & go & E & (_ & Hgo & _) & H).
    rewrite (Hgo eq_refl eq_refl) in H. destruct H as (Hc & _).
    exists evs. split; [exact E | split].
    + eapply Forall_impl; [apply phasePolicy_noPrompt | ].
      eapply sat_events; [apply (mergedSection_sat w false true) | exact E].
    + rewrite Hc, deleteCommand_soft. reflexivity.
  - intros h days stale h1 He.
    destruct (staleSection_run w false true days h stale h1 He)
      as (evs & go & E & (_ & Hgo & _) & H).
    rewrite (Hgo eq_refl eq_refl) in H. destruct H as (Hc & _).
    exists evs. split; [exact E | split].
    + eapply Forall_impl; [apply phasePolicy_noPrompt | ].
      eapply sat_events; [apply (staleSection_sat w false true) | exact E].
    + rewrite Hc, deleteCommand_forced, map_map. reflexivity.
  - intros h gone h1 He.
    destruct (goneSection_run w false true h gone h1 He)
      as (evs & go & E & (_ & Hgo & _) & H).
    rewrite (Hgo eq_refl eq_refl) in H. destruct H as (Hc & _).
    exists evs. split; [exact E | split].
    + eapply Forall_impl; [apply phasePolicy_noPrompt | ].
      eapply sat_events; [apply (goneSection_sat w false true) | exact E].
    + rewrite Hc, deleteCommand_forced. reflexivity.
Qed.

Lemma force_skips_prompt_witness :
  Forall (fun e => isPrompt e = false)
         (snd (program (Demo.repo "n") ["all"; "--force"]%string)) /\
  exists evs,
    staleSection (Demo.repo "n") false true (Num 60) [] = (Ok tt, [] ++ evs) /\
    Forall (fun e => isPrompt e = false) evs /\
    deleteCalls evs = ["git branch -D feature/a"]%string.
Proof.
  destruct (force_skips_prompt (Demo.repo "n")) as (Hp & _ & _ & Hs & _).
  split.
  - apply (Hp ["all"; "--force"]%string). cbn. auto.
  - refine (Hs [] (Num 60) [ {| branch := "feature/a"; daysAgo := Num 61 |} ] _ _).
    vm_compute. reflexivity.
Defined.

(** C10.  Whatever the two flags, the deletions executed by the merged
    section are none or [git branch -d b] for each branch found, and those of
    the stale and gone sections are none or [git branch -D b] for each branch
    found; they are executed (in that mode) as soon as dry-run is unset and
    either force is set or the user accepts.  The flags never change the
    mode. *)
Theorem delete_mode_by_section (w : World) (dryRun force : bool) :
  sat (phasePolicy dryRun force false) uncaught (mergedSection w dryRun force) /\
  (forall days,
      sat (phasePolicy dryRun force true) uncaught (staleSection w dryRun force days)) /\
  sat (phasePolicy dryRun force true) uncaught (goneSection w dryRun force) /\
  (forall h merged h1,
      getMergedBranches w (h ++ [EvLog mergedTitle]) = (Ok merged, h1) ->
      exists evs,
        mergedSection w dryRun force h = (Ok tt, h ++ evs) /\
        (deleteCalls evs = [] \/
         deleteCalls evs = map (fun b => "git branch -d " ++ b)%string merged) /\
        (dryRun = false ->
         force = true \/ (forall h' q, affirmative (readLine w h' q) = true) ->
         deleteCalls evs = map (fun b => "git branch -d " ++ b)%string merged)) /\
  (forall h days stale h1,
      getStaleBranches w days (h ++ [EvLog (staleTitle days)]) = (Ok stale, h1) ->
      exists evs,
        staleSection w dryRun force days h = (Ok tt, h ++ evs) /\
        (deleteCalls evs = [] \/
         deleteCalls evs = map (fun s => "git branch -D " ++ branch s)%string stale) /\
        (dryRun = false ->
         force = true \/ (forall h' q, affirmative (readLine w h' q) = true) ->
         deleteCalls evs = map (fun s => "git branch -D " ++ branch s)%string stale)) /\
  (forall h gone h1,
      getGoneBranches w (h ++ [EvLog goneTitle]) = (Ok gone, h1) ->
      exists evs,
        goneSection w dryRun force h = (Ok tt, h ++ evs) /\
        (deleteCalls evs = [] \/
         deleteCalls evs = map (fun b => "git branch -D " ++ b)%string gone) /\
        (dryRun = false ->
         force = true \/ (forall h' q, affirmative (readLine w h' q) = true) ->
         deleteCalls evs = map (fun b => "git branch -D " ++ b)%string gone)).
Proof.
  split; [apply mergedSection_sat | ].
  split; [intros days; apply staleSection_sat | ].
  split; [apply goneSection_sat | ].
  split; [ | split].
  - intros h merged h1 He.
    destruct (mergedSection_run w dryRun force h merged h1 He)
      as (evs & go & E & (_ & Hf & Hy) & H).
    exists evs. split; [exact E | ].
    rewrite deleteCommand_soft in H. split.
    + destruct go; [right; apply H | left; apply H].
    + intros Hd [Hforce | Hyes];
        [rewrite (Hf Hd Hforce) in H | rewrite (Hy Hd Hyes) in H]; apply H.
  - intros h days stale h1 He.
    destruct (staleSection_run w dryRun force days h stale h1 He)
      as (evs & go & E & (_ & Hf & Hy) & H).
    exists evs. split; [exact E | ].
    rewrite deleteCommand_forced, map_map in H. split.
    + destruct go; [right; apply H | left; apply H].
    + intros Hd [Hforce | Hyes];
        [rewrite (Hf Hd Hforce) in H | rewrite (Hy Hd Hyes) in H]; apply H.
  - intros h gone h1 He.
    destruct (goneSection_run w dryRun force h gone h1 He)
      as (evs & go & E & (_ & Hf & Hy) & H).
    exists evs. split; [exact E | ].
    rewrite deleteCommand_forced in H. split.
    + destruct go; [right; apply H | left; apply H].
    + intros Hd [Hforce | Hyes];
        [rewrite (Hf Hd Hforce) in H | rewrite (Hy Hd Hyes) in H]; apply H.
Qed.

Lemma delete_mode_by_section_witness :
  (exists evs,
      staleSection (Demo.repo "yes") false false (Num 60) [] = (Ok tt, [] ++ evs) /\
      deleteCalls evs = ["git branch -D feature/a"]%string) /\
  (exists evs,
      mergedSection (Demo.repo "yes") false true [] = (Ok tt, [] ++ evs) /\
      deleteCalls evs = ["git branch -d feature/a"; "git branch -d feature/b"]%string).
Proof.
  split.
  - destruct (delete_mode_by_section (Demo.repo "yes") false false)
      as (_ & _ & _ & _ & Hs & _).
    edestruct (Hs [] (Num 60) [ {| branch := "feature/a"; daysAgo := Num 61 |} ])
      as (evs & E & _ & H); [vm_compute; reflexivity | ].
    exists evs. split; [exact E | ]. apply H; [reflexivity | ].
    right. intros h' q. reflexivity.
  - destruct (delete_mode_by_section (Demo.repo "yes") false true)
      as (_ & _ & _ & Hm & _).
    edestruct (Hm [] ["feature/a"; "feature/b"]%string)
      as (evs & E & _ & H); [vm_compute; reflexivity | ].
    exists evs. split; [exact E | ]. apply H; [reflexivity | ].
    left. reflexivity.
Defined.

(** ** Stale branches *)

Lemma sortInsert_In {A} (cmp : A -> A -> number) (x y : A) (l : list A) :
  In y (sortInsert cmp x l) <-> y = x \/ In y l.
Proof.
  induction l as [ | z l IH]; cbn [sortInsert].
  - cbn. intuition congruence.
  - destruct (gt (cmp x z) (Num 0)); cbn [In]; [rewrite IH | ]; intuition congruence.
Qed.

Lemma sort_In {A} (cmp : A -> A -> number) (y : A) (l : list A) :
  In y (sort cmp l) <-> In y l.
Proof.
  induction l as [ | x l IH]; cbn [sort fold_right]; [reflexivity | ].
  fold (sort cmp l). rewrite sortInsert_In, IH. cbn. intuition congruence.
Qed.

Lemma sort_names (cmp : staleBranch -> staleBranch -> number) b l :
  In b (map branch (sort cmp l)) <-> In b (map branch l).
Proof.
  rewrite !in_map_iff. split; intros (s & Hs & Hin); exists s;
    (split; [exact Hs | apply (sort_In cmp); exact Hin]).
Qed.

Section Stale.

Variable w : World.
Variable cutoff : number.

(** Each turn of the loop returns, with the list unchanged or with one entry
    for its branch appended. *)
Lemma staleStep_shape stale b h :
  exists h', staleStep w cutoff stale b h = (Ok stale, h') \/
             exists d, staleStep w cutoff stale b h
                       = (Ok (stale ++ [{| branch := b; daysAgo := d |}]), h').
Proof.
  unfold staleStep, tryCatch, bind, run, quiet, ret, now. cbn [ignoreError].
  destruct (execSync w h _) as [out | msg]; [ | eexists; left; reflexivity].
  destruct (lt _ cutoff);
    [eexists; right; eexists; reflexivity | eexists; left; reflexivity].
Qed.

(** The turn of a branch whose last commit is known. *)
Lemma staleStep_known stale b t h :
  (forall h', exists out,
      execSync w h' ("git log -1 --format=%ci " ++ b)%string = ExecOk out /\
      dateParse w (trim out) = Num t) ->
  exists d h',
    staleStep w cutoff stale b h =
      (Ok (if lt (Num t) cutoff
           then stale ++ [{| branch := b; daysAgo := d |}]
           else stale), h').
Proof.
  intros Hts. destruct (Hts h) as (out & Ex & Hp).
  unfold staleStep, tryCatch, bind, run, quiet, ret, now. cbn [ignoreError].
  rewrite Ex, Hp.
  destruct (lt (Num t) cutoff); [repeat esplit | exists NaN; repeat esplit].
Qed.

Lemma staleLoop_total branches :
  forall stale h, exists res h', staleLoop w cutoff branches stale h = (Ok res, h').
Proof.
  induction branches as [ | b rest IH]; intros stale h; cbn [staleLoop].
  - eexists; eexists; reflexivity.
  - unfold bind.
    destruct (staleStep_shape stale b h) as (h1 & [E | (d & E)]); rewrite E; apply IH.
Qed.

Lemma staleLoop_subset branches :
  forall stale h res h' x,
    staleLoop w cutoff branches stale h = (Ok res, h') ->
    In x (map branch res) -> In x (map branch stale) \/ In x branches.
Proof.
  induction branches as [ | b rest IH]; intros stale h res h' x; cbn [staleLoop].
  - intros E. injection E as <- _. auto.
  - unfold bind.
    destruct (staleStep_shape stale b h) as (h1 & [E | (d & E)]); rewrite E;
      intros El Hin; destruct (IH _ _ _ _ _ El Hin) as [H | H]; cbn [In]; auto.
    rewrite map_app in H. apply in_app_or in H. cbn in H. intuition.
Qed.

Lemma staleLoop_member b t :
  (forall h', exists out,
      execSync w h' ("git log -1 --format=%ci " ++ b)%string = ExecOk out /\
      dateParse w (trim out) = Num t) ->
  forall branches stale h res h',
    staleLoop w cutoff branches stale h = (Ok res, h') ->
    (In b (map branch res) <->
     In b (map branch stale) \/ (In b branches /\ lt (Num t) cutoff = true)).
Proof.
  intros Hts.
  induction branches as [ | b' rest IH]; intros stale h res h'; cbn [staleLoop].
  - intros E. injection E as <- _. cbn. tauto.
  - unfold bind. destruct (string_dec b' b) as [-> | Hne].
    + destruct (staleStep_known stale b t h Hts) as (d & h1 & E). rewrite E.
      intros El. rewrite (IH _ _ _ _ El).
      destruct (lt (Num t) cutoff).
      * rewrite map_app, in_app_iff. cbn. tauto.
      * cbn. intuition congruence.
    + destruct (staleStep_shape stale b' h) as (h1 & [E | (d & E)]); rewrite E;
        intros El; rewrite (IH _ _ _ _ El).
      * cbn. intuition congruence.
      * rewrite map_app, in_app_iff. cbn. intuition congruence.
Qed.

End Stale.

Lemma truthy_spec s : truthy s = true <-> s <> EmptyString.
Proof.
  unfold truthy. rewrite negb_true_iff. split.
  - intros H ->. discriminate H.
  - intros H. apply String.eqb_neq. exact H.
Qed.

Lemma differs_spec a b : negb (String.eqb a b) = true <-> a <> b.
Proof.
  rewrite negb_true_iff. apply String.eqb_neq.
Qed.

(** The branches that [getStaleBranches] examines. *)
Lemma stale_candidates current defaultBranch listing b :
  In b (filter (fun b => truthy b && negb (String.eqb b current)
                         && negb (String.eqb b defaultBranch))
               (branchLines listing)) <->
  In b (branchLines listing) /\ b <> EmptyString /\ b <> current /\ b <> defaultBranch.
Proof.
  rewrite filter_In, !andb_true_iff, truthy_spec, !differs_spec. tauto.
Qed.

Lemma getStaleBranches_run (w : World) (days : number) h current h1 defaultBranch h2
      listing h3 :
  run w "git branch --show-current" quiet h = (Ok current, h1) ->
  getDefaultBranch w h1 = (Ok defaultBranch, h2) ->
  run w "git branch" quiet h2 = (Ok listing, h3) ->
  exists stale h',
    getStaleBranches w days h = (Ok stale, h') /\
    (forall x, In x (map branch stale) ->
               In x (branchLines listing) /\ x <> EmptyString /\ x <> current
               /\ x <> defaultBranch) /\
    (forall b t,
        (forall h', exists out,
            execSync w h' ("git log -1 --format=%ci " ++ b)%string = ExecOk out /\
            dateParse w (trim out) = Num t) ->
        (In b (map branch stale) <->
         (In b (branchLines listing) /\ b <> EmptyString /\ b <> current
          /\ b <> defaultBranch) /\
         lt (Num t) (sub (Num (dateNow w h2)) (mul days (Num msPerDay))) = true)).
Proof.
  intros Hc Hd Hl. unfold getStaleBranches.
  unfold bind at 1. rewrite Hc. unfold bind at 1. rewrite Hd.
  unfold bind at 1, now. unfold bind at 1. rewrite Hl.
  set (cutoff := sub (Num (dateNow w h2)) (mul days (Num msPerDay))).
  set (cands := filter _ (branchLines listing)).
  destruct (staleLoop_total w cutoff cands [] h3) as (res & h' & E).
  unfold bind, ret. rewrite E.
  eexists; eexists. split; [reflexivity | split].
  - intros x Hx. apply sort_names in Hx.
    destruct (staleLoop_subset w cutoff _ _ _ _ _ x E Hx) as [H | H]; [contradiction H | ].
    apply stale_candidates. exact H.
  - intros b t Hts. rewrite sort_names.
    rewrite (staleLoop_member w cutoff b t Hts _ _ _ _ _ E).
    unfold cands. rewrite stale_candidates. cbn. tauto.
Qed.

(** C1.  Take a branch of the listing other than the current and the default
    branch, whose last commit parses to the instant [t].  With a threshold of
    [d] days and [Date.now()] read after the default branch is resolved, the
    branch is in the result exactly when [t < now - d days]: at [t] equal to
    the cutoff it is left out; with 60 days, a commit 59 days before [now] is
    left out and one 61 days before is included. *)
Theorem stale_cutoff_strict (w : World) (d : Z) (h h1 h2 h3 : history)
        (current defaultBranch listing b : string) (t : Z) :
  run w "git branch --show-current" quiet h = (Ok current, h1) ->
  getDefaultBranch w h1 = (Ok defaultBranch, h2) ->
  run w "git branch" quiet h2 = (Ok listing, h3) ->
  In b (branchLines listing) ->
  b <> EmptyString -> b <> current -> b <> defaultBranch ->
  (forall h', exists out,
      execSync w h' ("git log -1 --format=%ci " ++ b)%string = ExecOk out /\
      dateParse w (trim out) = Num t) ->
  exists stale h',
    getStaleBranches w (Num d) h = (Ok stale, h') /\
    (In b (map branch stale) <-> t < dateNow w h2 - d * msPerDay) /\
    (t = dateNow w h2 - d * msPerDay -> ~ In b (map branch stale)) /\
    (d = 60 -> t = dateNow w h2 - 59 * msPerDay -> ~ In b (map branch stale)) /\
    (d = 60 -> t = dateNow w h2 - 61 * msPerDay -> In b (map branch stale)).
Proof.
  intros Hc Hd Hl Hin Hne Hcur Hdef Hts.
  destruct (getStaleBranches_run w (Num d) h current h1 defaultBranch h2 listing h3
              Hc Hd Hl) as (stale & h' & E & _ & Hm).
  exists stale, h'. split; [exact E | ].
  assert (Hiff : In b (map branch stale) <-> t < dateNow w h2 - d * msPerDay).
  { rewrite (Hm b t Hts). cbn [lt sub mul]. rewrite Z.ltb_lt. tauto. }
  split; [exact Hiff | ].
  unfold msPerDay in *. repeat split.
  - intros ->. rewrite Hiff. lia.
  - intros -> ->. rewrite Hiff. lia.
  - intros -> ->. apply Hiff. lia.
Qed.

Lemma stale_cutoff_strict_witness :
  exists stale h',
    getStaleBranches (Demo.repo "n") (Num 60) [] = (Ok stale, h') /\
    In "feature/a"%string (map branch stale) /\
    ~ In "feature/b"%string (map branch stale).
Proof.
  pose (w := Demo.repo "n").
  pose (h1 := snd (run w "git branch --show-current" quiet [])).
  pose (h2 := snd (getDefaultBranch w h1)).
  pose (h3 := snd (run w "git branch" quiet h2)).
  destruct (stale_cutoff_strict w 60 [] h1 h2 h3 "dev" "main" (trim Demo.listing)
              "feature/a" (Demo.clock - 61 * msPerDay))
    as (stale & h' & E & _ & _ & _ & Ha);
    try reflexivity; try discriminate.
  { vm_compute. auto. }
  { intros hx. eexists. split; reflexivity. }
  destruct (stale_cutoff_strict w 60 [] h1 h2 h3 "dev" "main" (trim Demo.listing)
              "feature/b" (Demo.clock - 59 * msPerDay))
    as (stale' & h'' & E' & _ & _ & Hb & _);
    try reflexivity; try discriminate.
  { vm_compute. auto. }
  { intros hx. eexists. split; reflexivity. }
  rewrite E in E'. injection E' as <- <-.
  exists stale, h'. split; [exact E | split].
  - apply Ha; reflexivity.
  - apply Hb; reflexivity.
Defined.

(** ** Exclusions *)

Lemma run_outcome (w : World) cmd o h :
  exists h', (exists out, run w cmd o h = (Ok out, h')) \/
             (exists msg, run w cmd o h = (Thrown msg, h')).
Proof.
  unfold run. destruct (execSync w h cmd) as [out | msg]; [eexists; left; eexists; reflexivity | ].
  destruct (ignoreError o); eexists; [left | right]; eexists; reflexivity.
Qed.

Lemma merged_candidates current defaultBranch listing b :
  In b (filter (fun b => truthy b && negb (String.eqb b current)
                         && negb (String.eqb b defaultBranch)
                         && negb (startsWith "remotes/" b))
               (branchLines listing)) ->
  b <> current /\ b <> defaultBranch.
Proof.
  rewrite filter_In, !andb_true_iff, !differs_spec. tauto.
Qed.

(** C2.  Let [current] be what [git branch --show-current] prints and
    [defaultBranch] what [getDefaultBranch] resolves.  Then
    [getMergedBranches] returns a list, and neither name is in it; and every
    list that [getStaleBranches] returns (it returns one as soon as
    [git branch] succeeds) has no entry for either name. *)
Theorem current_and_default_excluded (w : World) (h h1 h2 : history)
        (current defaultBranch : string) :
  run w "git branch --show-current" quiet h = (Ok current, h1) ->
  getDefaultBranch w h1 = (Ok defaultBranch, h2) ->
  (exists merged h',
      getMergedBranches w h = (Ok merged, h') /\
      ~ In current merged /\ ~ In defaultBranch merged) /\
  (forall days listing h3,
      run w "git branch" quiet h2 = (Ok listing, h3) ->
      exists stale h', getStaleBranches w days h = (Ok stale, h')) /\
  (forall days stale h',
      getStaleBranches w days h = (Ok stale, h') ->
      ~ In current (map branch stale) /\ ~ In defaultBranch (map branch stale)).
Proof.
  intros Hc Hd. split; [ | split].
  - unfold getMergedBranches.
    unfold bind at 1. rewrite Hc. unfold bind at 1. rewrite Hd.
    unfold bind, ret.
    destruct (run_outcome w ("git branch --merged " ++ defaultBranch)%string
                          quietIgnore h2) as (h3 & [(out & E) | (msg & E)]).
    + rewrite E. eexists; eexists. split; [reflexivity | ].
      split; intros H; apply merged_candidates in H; tauto.
    + unfold run in E. destruct (execSync w h2 _); discriminate E.
  - intros days listing h3 Hl.
    destruct (getStaleBranches_run w days h current h1 defaultBranch h2 listing h3
                Hc Hd Hl) as (stale & h' & E & _).
    exists stale, h'. exact E.
  - intros days stale h' E.
    destruct (run_outcome w "git branch" quiet h2) as (h3 & [(listing & Hl) | (msg & Hl)]).
    + destruct (getStaleBranches_run w days h current h1 defaultBranch h2 listing h3
                  Hc Hd Hl) as (stale' & h'' & E' & Hsub & _).
      rewrite E in E'. injection E' as <- <-.
      split; intros H; apply Hsub in H; tauto.
    + exfalso. revert E. unfold getStaleBranches.
      unfold bind at 1. rewrite Hc. unfold bind at 1. rewrite Hd.
      unfold bind at 1, now. unfold bind at 1. rewrite Hl. discriminate.
Qed.

Lemma current_and_default_excluded_witness :
  (exists merged h',
      getMergedBranches (Demo.repo "n") [] = (Ok merged, h') /\
      ~ In "dev"%string merged /\ ~ In "main"%string merged) /\
  (exists stale h', getStaleBranches (Demo.repo "n") (Num 30) [] = (Ok stale, h')).
Proof.
  pose (w := Demo.repo "n").
  pose (h1 := snd (run w "git branch --show-current" quiet [])).
  pose (h2 := snd (getDefaultBranch w h1)).
  destruct (current_and_default_excluded w [] h1 h2 "dev" "main" eq_refl eq_refl)
    as (Hm & Hs & _).
  split; [exact Hm | ].
  apply (Hs (Num 30) (trim Demo.listing) (snd (run w "git branch" quiet h2))).
  reflexivity.
Defined.

(** ** Failures of external calls *)

(** C3, as stated, fails.  In a repository where only
    [git branch --show-current] fails, the merged enumeration throws instead
    of returning an empty list, and [all] stops there: the stale, gone and
    large sections never start.  The process prints the error and ends with
    status 0. *)
Lemma unguarded_failure_aborts_all :
  execSync Demo.brokenRepo [] revParse = ExecOk ".git" /\
  fst (getMergedBranches Demo.brokenRepo [])
    = Thrown "Command failed: git branch --show-current" /\
  program Demo.brokenRepo ["all"]%string =
    (0, [EvExec revParse (ExecOk ".git");
         EvLog (c cyan (nl ++ "🧹 git-cleanup" ++ nl)%string);
         EvLog mergedTitle;
         EvExec "git branch --show-current"
                (ExecError "Command failed: git branch --show-current");
         EvError "Command failed: git branch --show-current"]).
Proof. vm_compute. repeat split. Qed.

Lemma Exists_uncaught message evs :
  Exists (uncaught message) evs ->
  exists cmd, In cmd unguarded /\ In (EvExec cmd (ExecError message)) evs.
Proof.
  intros H. apply Exists_exists in H. destruct H as (e & Hin & cmd & Hc & ->).
  exists cmd. auto.
Qed.

(** ** The default branch *)

(** C6, evaluated where the code departs from it.  The repository has no
    remote and two branches, [maintenance] and [master].  No branch is named
    [main] and one is named [master], so the fallback order gives [master];
    [getDefaultBranch] answers [main], because the text of the listing
    contains "main" inside "maintenance". *)
Theorem default_branch_substring_match :
  fst (getDefaultBranch Demo.maintenanceRepo []) = Ok "main"%string /\
  branchLines (trim Demo.maintenanceListing) = ["maintenance"; "master"]%string /\
  resolveDefaultBranch None ["maintenance"; "master"]%string = "master"%string /\
  includes "main" "maintenance" = true.
Proof. vm_compute. repeat split. Qed.

(** What the code does resolve: the last segment of the remote's symbolic
    reference when there is one, and otherwise a name chosen by looking for
    "main", then "master", in the text of [git branch -a]. *)
Lemma getDefaultBranch_remote (w : World) h remotes ref :
  execSync w h "git remote" = ExecOk remotes ->
  (let first := hd EmptyString (split "010" (trim remotes)) in
   execSync w (h ++ [EvExec "git remote" (ExecOk remotes)])
            ("git symbolic-ref refs/remotes/"
               ++ (if truthy first then first else "origin") ++ "/HEAD")%string
   = ExecOk ref) ->
  trim ref <> EmptyString ->
  fst (getDefaultBranch w h) = Ok (last (split "/" (trim ref)) EmptyString).
Proof.
  intros Hr Hs Ht. cbv zeta in Hs. apply truthy_spec in Ht.
  unfold getDefaultBranch. unfold bind at 1. unfold tryCatch, bind at 1.
  unfold run at 1. rewrite Hr. unfold bind at 1. unfold run at 1.
  rewrite Hs. rewrite Ht. reflexivity.
Qed.

Lemma getDefaultBranch_fallback (w : World) h message listing :
  execSync w h "git remote" = ExecError message ->
  execSync w (h ++ [EvExec "git remote" (ExecError message)]) "git branch -a"
  = ExecOk listing ->
  fst (getDefaultBranch w h) =
    Ok (if includes "main" (trim listing) then "main"
        else if includes "master" (trim listing) then "master"
        else "main")%string.
Proof.
  intros Hr Hl.
  unfold getDefaultBranch. unfold bind at 1. unfold tryCatch, bind at 1.
  unfold run at 1. rewrite Hr. cbn [ignoreError quiet ret].
  unfold bind, run. rewrite Hl.
  destruct (includes "main" (trim listing)); [reflexivity | ].
  destruct (includes "master" (trim listing)); reflexivity.
Qed.

(** ** Runs of the scripted worlds *)

Example run_outside_repository :
  program Demo.nowhere ["stale"; "--days"; "60"]%string =
    (1, [EvExec revParse (ExecError "Command failed: git rev-parse --git-dir");
         EvError notARepository]).
Proof. reflexivity. Qed.

Example run_help_outside_repository :
  program Demo.nowhere ["--help"]%string = (0, [EvLog helpText]).
Proof. reflexivity. Qed.

Example run_stale_declined :
  deleteCalls (snd (program (Demo.repo "n") ["stale"; "--days"; "60"]%string)) = [] /\
  In (EvLog ("   " ++ c yellow "•" ++ " feature/a " ++ c dim "(61 days ago)")%string)
     (snd (program (Demo.repo "n") ["stale"; "--days"; "60"]%string)).
Proof. vm_compute. split; [reflexivity | tauto]. Qed.

Example run_gone_current_branch :
  fst (getGoneBranches
         (Demo.scripted
            [("git branch -vv",
              ("* dev       1a2b3c4 [origin/dev: gone] work" ++ nl ++
               "  feature/a 5d6e7f8 [origin/feature/a: gone] old")%string)]
            [] EmptyString 0) [])
  = Ok ["*"; "feature/a"]%string.
Proof. reflexivity. Qed.

Example large_file_lines :
  map sizeStr
      (map largeFileOfLine
           ["a1 15938355 assets/video.mp4"; "b2 524288 images/hero.png"; "c3 12 z"; "d4"]%string)
  = ["15.2 MB"; "512.0 KB"; "12 B"; "NaN B"]%string.
Proof. reflexivity. Qed.

Example string_helpers :
  trim ("  * dev " ++ nl) = "* dev"%string /\
  split "010" ("a" ++ nl ++ "b" ++ nl) = ["a"; "b"; ""]%string /\
  splitWhite " a  b " = [""; "a"; "b"; ""]%string /\
  parseInt (Some " -12ab"%string) = Num (-12) /\
  parseInt (Some "days"%string) = NaN /\
  parseInt None = NaN.
Proof. repeat split. Qed.

(** * Further properties *)

(** ** The stale list *)

Section StaleList.

Variable w : World.

(** One turn of the loop: it executes [git log] for its branch, and appends
    an entry only when the date parses to an instant before a numeric
    cutoff; the age is then computed from the clock read after the call. *)
Lemma staleStep_cases cutoff stale b h :
  exists res h',
    res = execSync w h (logCommand b) /\
    h' = h ++ [EvExec (logCommand b) res] /\
    ((staleStep w cutoff stale b h = (Ok stale, h') /\
      match res with
      | ExecOk out => lt (dateParse w (trim out)) cutoff = false
      | ExecError _ => True
      end) \/
     (exists out t c,
         res = ExecOk out /\ dateParse w (trim out) = Num t /\ cutoff = Num c /\
         t < c /\
         staleStep w cutoff stale b h =
           (Ok (stale ++ [{| branch := b;
                            daysAgo := Num ((dateNow w h' - t) / msPerDay) |}]), h'))).
Proof.
  unfold staleStep, tryCatch, bind, run, quiet, ret, now. cbn [ignoreError].
  fold (logCommand b).
  destruct (execSync w h (logCommand b)) as [out | msg];
    eexists; eexists; (split; [reflexivity | split; [reflexivity | ]]);
    [ | left; split; [reflexivity | exact I]].
  destruct (dateParse w (trim out)) as [ | t] eqn:Hp;
    [left; split; reflexivity | ].
  destruct cutoff as [ | c]; [left; split; reflexivity | ].
  cbn [lt]. destruct (Z.ltb_spec t c) as [Hlt | Hge].
  - right. exists out, t, c. repeat split; auto.
  - left. split; reflexivity.
Qed.

Lemma staleLoop_Forall cutoff (I : history -> Prop) (P : staleBranch -> Prop) :
  (forall h e, I h -> I (h ++ e)) ->
  (forall h t c b, I h -> cutoff = Num c -> t < c ->
                   P {| branch := b; daysAgo := Num ((dateNow w h - t) / msPerDay) |}) ->
  forall branches stale h res h',
    I h -> Forall P stale ->
    staleLoop w cutoff branches stale h = (Ok res, h') -> Forall P res.
Proof.
  intros Hext Hnew.
  induction branches as [ | b rest IH]; intros stale h res h' Hi Hs; cbn [staleLoop].
  - intros E. injection E as <- _. exact Hs.
  - unfold bind.
    destruct (staleStep_cases cutoff stale b h)
      as (r & h1 & _ & Eh & [(E & _) | (out & t & c & _ & _ & Hc & Hlt & E)]);
      rewrite E; apply IH; subst h1; auto.
    apply Forall_app. split; [exact Hs | ]. constructor; [ | constructor].
    apply (Hnew _ t c b); auto.
Qed.

Lemma staleLoop_commands cutoff branches :
  forall stale h res h',
    staleLoop w cutoff branches stale h = (Ok res, h') ->
    exists evs, h' = h ++ evs /\ commands evs = map logCommand branches.
Proof.
  induction branches as [ | b rest IH]; intros stale h res h'; cbn [staleLoop].
  - intros E. injection E as _ <-. exists []. rewrite app_nil_r. auto.
  - unfold bind.
    destruct (staleStep_cases cutoff stale b h)
      as (r & h1 & _ & Eh & [(E & _) | (out & t & c & _ & _ & _ & _ & E)]);
      rewrite E; intros El; destruct (IH _ _ _ _ El) as (evs & -> & Hc); subst h1;
      exists (EvExec (logCommand b) r :: evs);
      (split; [rewrite <- app_assoc; reflexivity | ]);
      unfold commands in *; cbn [flat_map app map]; rewrite Hc; reflexivity.
Qed.

(** A branch whose [git log] fails or prints a date that does not parse is
    never appended. *)
Lemma staleLoop_skips cutoff b :
  (forall h, match execSync w h (logCommand b) with
             | ExecOk out => dateParse w (trim out) = NaN
             | ExecError _ => True
             end) ->
  forall branches stale h res h',
    staleLoop w cutoff branches stale h = (Ok res, h') ->
    In b (map branch res) -> In b (map branch stale).
Proof.
  intros Hbad.
  induction branches as [ | b' rest IH]; intros stale h res h'; cbn [staleLoop].
  - intros E. injection E as <- _. auto.
  - unfold bind.
    destruct (staleStep_cases cutoff stale b' h)
      as (r & h1 & Er & Eh & [(E & _) | (out & t & c & Eo & Hp & _ & _ & E)]);
      rewrite E; intros El Hin; specialize (IH _ _ _ _ El Hin); auto.
    rewrite map_app, in_app_iff in IH. destruct IH as [H | [H | []]]; [exact H | ].
    cbn in H. subst b'. specialize (Hbad h). rewrite <- Er, Eo, Hp in Hbad.
    discriminate Hbad.
Qed.

Lemma getStaleBranches_inv days h stale h' :
  getStaleBranches w days h = (Ok stale, h') ->
  exists current h1 defaultBranch h2 listing h3 found,
    run w "git branch --show-current" quiet h = (Ok current, h1) /\
    getDefaultBranch w h1 = (Ok defaultBranch, h2) /\
    run w "git branch" quiet h2 = (Ok listing, h3) /\
    staleLoop w (sub (Num (dateNow w h2)) (mul days (Num msPerDay)))
              (filter (fun b => truthy b && negb (String.eqb b current)
                                && negb (String.eqb b defaultBranch))
                      (branchLines listing)) [] h3 = (Ok found, h') /\
    stale = sort (fun a b => sub (daysAgo b) (daysAgo a)) found.
Proof.
  intros E. unfold getStaleBranches in E. unfold bind at 1 in E.
  destruct (run w "git branch --show-current" quiet h) as [[current | m | k] h1] eqn:Hc;
    try discriminate E.
  unfold bind at 1 in E.
  destruct (getDefaultBranch w h1) as [[defaultBranch | m | k] h2] eqn:Hd;
    try discriminate E.
  unfold bind at 1, now in E. unfold bind at 1 in E.
  destruct (run w "git branch" quiet h2) as [[listing | m | k] h3] eqn:Hl;
    try discriminate E.
  unfold bind, ret in E.
  match type of E with
  | context [staleLoop w ?cut ?cands [] h3] =>
      destruct (staleLoop w cut cands [] h3) as [[found | m | k] h4] eqn:Hs
  end; try discriminate E.
  injection E as <- <-.
  exists current, h1, defaultBranch, h2, listing, h3, found.
  repeat split; auto.
Qed.

End StaleList.

(** Sorting by decreasing age. *)

Lemma sortInsert_perm {A} (cmp : A -> A -> number) x l :
  Permutation (sortInsert cmp x l) (x :: l).
Proof.
  induction l as [ | y l IH]; cbn [sortInsert]; [reflexivity | ].
  destruct (gt (cmp x y) (Num 0)); [ | reflexivity].
  rewrite IH. apply perm_swap.
Qed.

Lemma sort_perm {A} (cmp : A -> A -> number) l : Permutation (sort cmp l) l.
Proof.
  induction l as [ | x l IH]; cbn [sort fold_right]; [reflexivity | ].
  fold (sort cmp l). rewrite sortInsert_perm. constructor. exact IH.
Qed.

Lemma byAge_hd x y l :
  olderFirst y x -> HdRel olderFirst y l ->
  HdRel olderFirst y (sortInsert (fun a b => sub (daysAgo b) (daysAgo a)) x l).
Proof.
  intros Hyx Hl. destruct l as [ | z l]; cbn [sortInsert]; [constructor; exact Hyx | ].
  destruct (gt _ _); constructor; [inversion Hl; auto | exact Hyx].
Qed.

Lemma byAge_insert x l :
  numericAge x -> Forall numericAge l -> Sorted olderFirst l ->
  Sorted olderFirst (sortInsert (fun a b => sub (daysAgo b) (daysAgo a)) x l).
Proof.
  intros (a & Ha) Hn Hs. induction l as [ | y l IH]; cbn [sortInsert].
  - repeat constructor.
  - inversion Hn as [ | ? ? (b & Hb) Hn']; subst. inversion Hs; subst.
    rewrite Ha, Hb. cbn [sub gt lt].
    destruct (Z.ltb_spec 0 (b - a)) as [Hlt | Hge].
    + constructor; [apply IH; auto | ].
      apply byAge_hd; [ | assumption].
      unfold olderFirst. rewrite Ha, Hb. lia.
    + constructor; [assumption | ]. constructor.
      unfold olderFirst. rewrite Ha, Hb. lia.
Qed.

Lemma byAge_sorted l :
  Forall numericAge l ->
  Sorted olderFirst (sort (fun a b => sub (daysAgo b) (daysAgo a)) l).
Proof.
  induction 1 as [ | x l Hx Hl IH]; cbn [sort fold_right]; [constructor | ].
  apply byAge_insert; [exact Hx | | exact IH].
  apply Forall_forall. intros y Hy. apply sort_In in Hy.
  revert y Hy. apply Forall_forall. exact Hl.
Qed.

(** X1.  Every list returned by [getStaleBranches] is in order of decreasing
    age, and the age of every entry is a number. *)
Theorem stale_sorted_oldest_first (w : World) days h stale h' :
  getStaleBranches w days h = (Ok stale, h') ->
  Sorted olderFirst stale /\ Forall numericAge stale.
Proof.
  intros E. apply getStaleBranches_inv in E.
  destruct E as (current & h1 & defaultBranch & h2 & listing & h3 & found
                 & _ & _ & _ & Hloop & ->).
  assert (Hn : Forall numericAge found).
  { apply (staleLoop_Forall w _ (fun _ => True) numericAge) with (5 := Hloop); auto.
    intros. eexists. reflexivity. }
  split; [apply byAge_sorted; exact Hn | ].
  apply Forall_forall. intros y Hy. apply sort_In in Hy.
  revert y Hy. apply Forall_forall. exact Hn.
Qed.

Lemma stale_sorted_oldest_first_witness :
  exists stale,
    map branch stale = ["feature/a"; "feature/b"]%string /\
    Sorted olderFirst stale /\ Forall numericAge stale.
Proof.
  exists (match fst (getStaleBranches (Demo.repo "n") (Num 30) []) with
          | Ok l => l
          | _ => []
          end).
  split; [reflexivity | ].
  apply (stale_sorted_oldest_first (Demo.repo "n") (Num 30) []
           _ (snd (getStaleBranches (Demo.repo "n") (Num 30) []))).
  reflexivity.
Defined.

Lemma run_appends (w : World) cmd o h out h' :
  run w cmd o h = (out, h') -> exists res, h' = h ++ [EvExec cmd res].
Proof.
  unfold run. destruct (execSync w h cmd); intros E; injection E as _ <-; eexists; reflexivity.
Qed.

Lemma sort_Forall {A} (cmp : A -> A -> number) (P : A -> Prop) l :
  Forall P l -> Forall P (sort cmp l).
Proof.
  intros H. apply Forall_forall. intros y Hy. apply sort_In in Hy.
  revert y Hy. apply Forall_forall. exact H.
Qed.

(** X2.  When the clock never goes back, every entry of the list returned for
    a threshold of [d] days has an age of at least [d] days. *)
Theorem stale_age_at_least_threshold (w : World) (d : Z) h stale h' :
  (forall a b, dateNow w a <= dateNow w (a ++ b)) ->
  getStaleBranches w (Num d) h = (Ok stale, h') ->
  Forall (fun s => exists z, daysAgo s = Num z /\ d <= z) stale.
Proof.
  intros Hclock E. apply getStaleBranches_inv in E.
  destruct E as (current & h1 & defaultBranch & h2 & listing & h3 & found
                 & _ & _ & Hl & Hloop & ->).
  apply sort_Forall.
  apply (staleLoop_Forall w _ (fun hx => dateNow w h2 <= dateNow w hx) _)
    with (5 := Hloop).
  - intros hx e Hx. specialize (Hclock hx e). lia.
  - intros hx t c b Hx Hc Hlt. cbn [sub mul] in Hc. injection Hc as <-.
    eexists. split; [reflexivity | ].
    apply Z.div_le_lower_bound; unfold msPerDay in *; lia.
  - apply run_appends in Hl. destruct Hl as (res & ->). apply Hclock.
  - constructor.
Qed.

Lemma stale_age_at_least_threshold_witness :
  Forall (fun s => exists z, daysAgo s = Num z /\ 30 <= z)
         (match fst (getStaleBranches (Demo.repo "n") (Num 30) []) with
          | Ok l => l
          | _ => []
          end).
Proof.
  apply (stale_age_at_least_threshold (Demo.repo "n") 30 []
           _ (snd (getStaleBranches (Demo.repo "n") (Num 30) []))).
  - intros a b. cbn. lia.
  - reflexivity.
Defined.

(** X3.  A branch whose [git log] fails, or prints a date that does not
    parse, is in no list returned by [getStaleBranches], whatever the
    threshold. *)
Theorem unreadable_date_never_stale (w : World) days b h stale h' :
  (forall hx, match execSync w hx (logCommand b) with
              | ExecOk out => dateParse w (trim out) = NaN
              | ExecError _ => True
              end) ->
  getStaleBranches w days h = (Ok stale, h') ->
  ~ In b (map branch stale).
Proof.
  intros Hbad E Hin. apply getStaleBranches_inv in E.
  destruct E as (current & h1 & defaultBranch & h2 & listing & h3 & found
                 & _ & _ & _ & Hloop & ->).
  apply sort_names in Hin.
  apply (staleLoop_skips w _ b Hbad _ _ _ _ _ Hloop) in Hin. exact Hin.
Qed.

Lemma unreadable_date_never_stale_witness :
  ~ In "feature/b"%string
       (map branch
            (match fst (getStaleBranches Demo.undatedRepo (Num 30) []) with
             | Ok l => l
             | _ => []
             end)).
Proof.
  apply (unreadable_date_never_stale Demo.undatedRepo (Num 30) "feature/b" []
           _ (snd (getStaleBranches Demo.undatedRepo (Num 30) []))).
  - intros hx. vm_compute. reflexivity.
  - reflexivity.
Defined.

Lemma staleLoop_NaN (w : World) branches :
  forall stale h res h',
    staleLoop w NaN branches stale h = (Ok res, h') -> res = stale.
Proof.
  induction branches as [ | b rest IH]; intros stale h res h'; cbn [staleLoop].
  - intros E. injection E as <- _. reflexivity.
  - unfold bind.
    destruct (staleStep_cases w NaN stale b h)
      as (r & h1 & _ & _ & [(E & _) | (out & t & c & _ & _ & Hc & _)]);
      [rewrite E; apply IH | discriminate Hc].
Qed.

Lemma indexOf_last x pre :
  ~ In x pre -> indexOf x (pre ++ [x]) = Some (length pre).
Proof.
  induction pre as [ | a pre IH]; cbn [indexOf app length]; intros Hn.
  - rewrite String.eqb_refl. reflexivity.
  - destruct (String.eqb_spec a x) as [-> | _]; [contradiction Hn; left; reflexivity | ].
    rewrite IH; [reflexivity | ]. intros H. apply Hn. right. exact H.
Qed.

(** X4.  [--days] given last, without a value, makes the threshold [NaN];
    and with a [NaN] threshold every list returned by [getStaleBranches] is
    empty. *)
Theorem missing_threshold_finds_nothing (w : World) :
  (forall pre, ~ In "--days"%string pre ->
               numericOption "--days" 30 (pre ++ ["--days"%string]) = NaN) /\
  (forall h stale h', getStaleBranches w NaN h = (Ok stale, h') -> stale = []).
Proof.
  split.
  - intros pre Hn. unfold numericOption. rewrite (indexOf_last _ _ Hn).
    replace (nth_error (pre ++ ["--days"%string]) (length pre + 1)) with (@None string);
      [reflexivity | ].
    symmetry. apply nth_error_None. rewrite length_app. cbn. lia.
  - intros h stale h' E. apply getStaleBranches_inv in E.
    destruct E as (current & h1 & defaultBranch & h2 & listing & h3 & found
                   & _ & _ & _ & Hloop & ->).
    cbn [sub mul] in Hloop. apply staleLoop_NaN in Hloop. subst found. reflexivity.
Qed.

Lemma missing_threshold_finds_nothing_witness :
  numericOption "--days" 30 ["stale"; "--force"; "--days"]%string = NaN /\
  fst (getStaleBranches (Demo.repo "n") NaN []) = Ok [].
Proof.
  destruct (missing_threshold_finds_nothing (Demo.repo "n")) as (Ho & Hs).
  split.
  - apply (Ho ["stale"; "--force"]%string). cbn. intros [H | [H | []]]; discriminate H.
  - pose (found := match fst (getStaleBranches (Demo.repo "n") NaN []) with
                   | Ok l => l
                   | _ => []
                   end).
    change (Ok found = @Ok (list staleBranch) []).
    rewrite (Hs [] found (snd (getStaleBranches (Demo.repo "n") NaN [])) eq_refl).
    reflexivity.
Defined.

(** X5.  After the branch listing, [getStaleBranches] executes [git log]
    once for each listed branch that is not empty, not the current and not
    the default branch, in the order of the listing, and nothing else. *)
Theorem one_log_per_candidate (w : World) days h stale h' :
  getStaleBranches w days h = (Ok stale, h') ->
  exists current h1 defaultBranch h2 listing h3 evs,
    run w "git branch --show-current" quiet h = (Ok current, h1) /\
    getDefaultBranch w h1 = (Ok defaultBranch, h2) /\
    run w "git branch" quiet h2 = (Ok listing, h3) /\
    h' = h3 ++ evs /\
    commands evs =
      map logCommand
          (filter (fun b => truthy b && negb (String.eqb b current)
                            && negb (String.eqb b defaultBranch))
                  (branchLines listing)).
Proof.
  intros E. apply getStaleBranches_inv in E.
  destruct E as (current & h1 & defaultBranch & h2 & listing & h3 & found
                 & Hc & Hd & Hl & Hloop & _).
  apply staleLoop_commands in Hloop. destruct Hloop as (evs & -> & Hcmd).
  exists current, h1, defaultBranch, h2, listing, h3, evs. auto.
Qed.

Lemma one_log_per_candidate_witness :
  exists evs,
    snd (getStaleBranches (Demo.repo "n") (Num 60) []) =
      snd (run (Demo.repo "n") "git branch" quiet
               (snd (getDefaultBranch (Demo.repo "n")
                       (snd (run (Demo.repo "n") "git branch --show-current" quiet [])))))
      ++ evs /\
    commands evs = ["git log -1 --format=%ci feature/a";
                    "git log -1 --format=%ci feature/b"]%string.
Proof.
  destruct (one_log_per_candidate (Demo.repo "n") (Num 60) []
              (match fst (getStaleBranches (Demo.repo "n") (Num 60) []) with
               | Ok l => l
               | _ => []
               end)
              (snd (getStaleBranches (Demo.repo "n") (Num 60) [])) eq_refl)
    as (current & h1 & defaultBranch & h2 & listing & h3 & evs
        & Hc & Hd & Hl & Hh & Hcmd).
  injection Hc as <- <-. injection Hd as <- <-. injection Hl as <- <-.
  exists evs. split; [exact Hh | exact Hcmd].
Defined.

(** ** Gone branches *)

Lemma append_empty_r (s : string) : (s ++ EmptyString)%string = s.
Proof. induction s as [ | a s IH]; cbn; [reflexivity | rewrite IH; reflexivity]. Qed.

Lemma append_assoc (a b d : string) : ((a ++ b) ++ d)%string = (a ++ (b ++ d))%string.
Proof. induction a as [ | x a IH]; cbn; [reflexivity | rewrite IH; reflexivity]. Qed.

Lemma splitWhiteFrom_hd s :
  forall piece, hd EmptyString (splitWhiteFrom piece false s) = (piece ++ firstWord s)%string.
Proof.
  induction s as [ | a r IH]; intros piece; cbn [splitWhiteFrom firstWord].
  - cbn. symmetry. apply append_empty_r.
  - destruct (isWhite a).
    + cbn. symmetry. apply append_empty_r.
    + rewrite IH, append_assoc. reflexivity.
Qed.

Lemma dropStar_keeps (a : ascii) (x : string) :
  (forall r, x <> String " " r) -> dropStar (String a x) = String a x.
Proof.
  intros Hx. destruct x as [ | b r]; [destruct a as [[] [] [] [] [] [] [] []]; reflexivity | ].
  destruct a as [[] [] [] [] [] [] [] []]; try reflexivity.
  destruct b as [[] [] [] [] [] [] [] []]; try reflexivity.
  exfalso. apply (Hx r). reflexivity.
Qed.

Lemma dropStar_firstWord s : dropStar (firstWord s) = firstWord s.
Proof.
  destruct s as [ | a r]; [reflexivity | ]. cbn [firstWord].
  destruct (isWhite a); [reflexivity | ].
  apply dropStar_keeps. intros x. destruct r as [ | b r]; [discriminate | ].
  cbn [firstWord]. destruct (isWhite b) eqn:Hb; [discriminate | ].
  intros H. injection H as -> _. discriminate Hb.
Qed.

(** X6.  [getGoneBranches] ignores the outcome of [git fetch --prune] and
    returns, for each line of [git branch -vv] that contains ": gone]", the
    first word of the trimmed line; removing a leading "* " from that word
    never changes it.  So the line of a current branch, which starts with
    "* ", yields the name ["*"]. *)
Theorem gone_names_are_first_words (w : World) h o h1 listing h2 :
  run w "git fetch --prune" quietIgnore h = (o, h1) ->
  run w "git branch -vv" quiet h1 = (Ok listing, h2) ->
  let gone := map (fun line => firstWord (trim line))
                  (filter (includes ": gone]") (split "010" listing)) in
  getGoneBranches w h = (Ok gone, h2) /\
  (forall line rest,
      In line (split "010" listing) ->
      includes ": gone]" line = true ->
      trim line = ("* " ++ rest)%string ->
      In "*"%string gone).
Proof.
  intros Hf Hl gone. split.
  - unfold getGoneBranches. unfold bind at 1.
    assert (Ho : exists x, o = Ok x).
    { unfold run in Hf. destruct (execSync w h _); injection Hf as <- _; eexists; reflexivity. }
    destruct Ho as (x & ->). rewrite Hf. unfold bind, ret. rewrite Hl.
    unfold gone. f_equal. f_equal. apply map_ext. intros line.
    unfold splitWhite. rewrite splitWhiteFrom_hd. cbn [append].
    apply dropStar_firstWord.
  - intros line rest Hin Hg Ht. unfold gone. apply in_map_iff.
    exists line. split; [rewrite Ht; reflexivity | ].
    apply filter_In. auto.
Qed.

Lemma gone_names_are_first_words_witness :
  fst (getGoneBranches Demo.goneRepo []) = Ok ["*"; "feature/a"]%string.
Proof.
  set (w := Demo.goneRepo).
  pose (r1 := run w "git fetch --prune" quietIgnore []).
  pose (r2 := run w "git branch -vv" quiet (snd r1)).
  destruct (gone_names_are_first_words w [] (fst r1) (snd r1)
              (match fst r2 with Ok s => s | _ => EmptyString end) (snd r2)
              eq_refl eq_refl) as (E & _).
  rewrite E. reflexivity.
Defined.

(** ** The default branch *)





(** ** The deletion loop, turn by turn *)

Lemma succeeded_attempt mode b res :
  succeeded (attempt mode b res) = match res with
                                   | ExecOk _ => 1%nat
                                   | ExecError _ => 0%nat
                                   end.
Proof.
  unfold attempt. cbn [succeeded isDelete]. rewrite deleteFlag_deleteCommand.
  destruct res; reflexivity.
Qed.

(** X8.  A deletion loop makes one attempt per branch, in order, whatever
    the earlier attempts returned: each attempt is the delete command in the
    loop's mode followed by its own line, "Deleted" when the call returned
    and "Failed to delete" when it threw.  The loop never throws and returns
    its counter plus the number of calls that returned. *)
Theorem delete_loop_attempts_each (w : World) (mode : bool) branches :
  forall deleted h, exists results,
    length results = length branches /\
    let evs := flat_map (fun p => attempt mode (fst p) (snd p))
                        (combine branches results) in
    deleteLoop w mode branches deleted h = (Ok (deleted + succeeded evs)%nat, h ++ evs).
Proof.
  induction branches as [ | b rest IH]; intros deleted h; cbn [deleteLoop].
  - exists []. split; [reflexivity | ]. cbn. rewrite app_nil_r, Nat.add_0_r. reflexivity.
  - unfold bind at 1. rewrite deleteBranch_run.
    destruct (execSync w h (deleteCommand mode b)) as [out | msg] eqn:Ex;
      unfold bind, log, emit.
    + match goal with
      | |- context [deleteLoop w mode rest ?d ?hx] =>
          destruct (IH d hx) as (results & Hlen & E)
      end.
      cbv zeta in E. rewrite E. exists (ExecOk out :: results).
      split; [cbn [length]; rewrite Hlen; reflexivity | ].
      cbv zeta. cbn [combine flat_map fst snd].
      rewrite succeeded_app, succeeded_attempt. repeat rewrite <- app_assoc.
      f_equal; try reflexivity; try (f_equal; lia); lia.
    + match goal with
      | |- context [deleteLoop w mode rest ?d ?hx] =>
          destruct (IH d hx) as (results & Hlen & E)
      end.
      cbv zeta in E. rewrite E. exists (ExecError msg :: results).
      split; [cbn [length]; rewrite Hlen; reflexivity | ].
      cbv zeta. cbn [combine flat_map fst snd].
      rewrite succeeded_app, succeeded_attempt. repeat rewrite <- app_assoc.
      reflexivity.
Qed.

(** ** Commands that are not listed, and [prune] *)

Lemma cleanup_prune (w : World) rest :
  cleanup w ("prune"%string :: rest) = (log banner ;; pruneSection w ;; log doneLine)%js.
Proof. reflexivity. Qed.


Lemma program_outside (w : World) args message :
  wantsHelp (nth_error args 0) = false ->
  execSync w [] revParse = ExecError message ->
  program w args = (1, [EvExec revParse (ExecError message); EvError notARepository]).
Proof.
  intros Hh E. unfold program. rewrite (main_outside w args [] message Hh E). reflexivity.
Qed.

(** X9.  A first argument that is neither a command nor a request for help
    is not reported: in a repository the program prints the banner and
    "Done!", executes nothing but the repository check and ends with status
    0; elsewhere it ends with status 1. *)
Theorem unknown_command_does_nothing (w : World) args cmd :
  nth_error args 0 = Some cmd ->
  ~ In cmd ["merged"; "stale"; "gone"; "large"; "all"; "prune";
            "--help"; "-h"; EmptyString]%string ->
  program w args =
    match execSync w [] revParse with
    | ExecOk out => (0, [EvExec revParse (ExecOk out); EvLog banner; EvLog doneLine])
    | ExecError message =>
        (1, [EvExec revParse (ExecError message); EvError notARepository])
    end.
Proof.
  intros Hc Hn.
  assert (Hneq : forall name,
             In name ["merged"; "stale"; "gone"; "large"; "all"; "prune";
                      "--help"; "-h"; EmptyString]%string ->
             String.eqb cmd name = false).
  { intros name Hin. apply String.eqb_neq. intros ->. exact (Hn Hin). }
  assert (Hh : wantsHelp (nth_error args 0) = false).
  { rewrite Hc. unfold wantsHelp, commandIs, truthy.
    rewrite !Hneq by (cbn; tauto). reflexivity. }
  destruct (execSync w [] revParse) as [out | message] eqn:E;
    [ | apply program_outside; assumption].
  unfold program. rewrite (main_inside w args [] out Hh E).
  unfold cleanup. rewrite Hc. unfold commandIs.
  rewrite !Hneq by (cbn; tauto). reflexivity.
Qed.

Lemma unknown_command_does_nothing_witness :
  program (Demo.repo "n") ["help"; "--force"]%string =
    (0, [EvExec revParse (ExecOk ".git"); EvLog banner; EvLog doneLine]) /\
  fst (program Demo.nowhere ["help"]%string) = 1.
Proof.
  split.
  - rewrite (unknown_command_does_nothing (Demo.repo "n") ["help"; "--force"]%string
               "help" eq_refl); [reflexivity | ].
    cbn. intros H. repeat (destruct H as [H | H]; [discriminate H | ]). exact H.
  - rewrite (unknown_command_does_nothing Demo.nowhere ["help"]%string "help" eq_refl);
      [reflexivity | ].
    cbn. intros H. repeat (destruct H as [H | H]; [discriminate H | ]). exact H.
Defined.

(** X10.  [prune] pays no attention to the other arguments, [--dry-run]
    included: in a repository it executes [git fetch --prune] once, prints
    the success line or the failure line with the error message, then
    "Done!", and ends with status 0 in both cases. *)
Theorem prune_ignores_flags (w : World) (rest : list string) :
  program w ("prune"%string :: rest) =
    match execSync w [] revParse with
    | ExecError message =>
        (1, [EvExec revParse (ExecError message); EvError notARepository])
    | ExecOk out =>
        let h := [EvExec revParse (ExecOk out); EvLog banner; EvLog pruneTitle] in
        match execSync w h "git fetch --prune" with
        | ExecOk fetched =>
            (0, h ++ [EvExec "git fetch --prune" (ExecOk fetched);
                      EvLog (c green ("   ✓ Pruned remote tracking branches" ++ nl)%string);
                      EvLog doneLine])
        | ExecError message =>
            (0, h ++ [EvExec "git fetch --prune" (ExecError message);
                      EvLog (c red ("   ✗ Failed to prune: " ++ message ++ nl)%string);
                      EvLog doneLine])
        end
    end.
Proof.
  destruct (execSync w [] revParse) as [out | message] eqn:E;
    [ | apply program_outside; [reflexivity | assumption]].
  unfold program.
  rewrite (main_inside w ("prune"%string :: rest) [] out eq_refl E), cleanup_prune.
  unfold bind at 1, log at 1, emit. unfold bind at 1.
  unfold pruneSection. unfold bind at 1, log at 1, emit.
  unfold tryCatch, bind at 1, run. cbn [app].
  fold pruneTitle.
  destruct (execSync w _ "git fetch --prune") as [fetched | message]; reflexivity.
Qed.

(** ** [large] *)

Lemma commands_app e1 e2 : commands (e1 ++ e2) = commands e1 ++ commands e2.
Proof. unfold commands. apply flat_map_app. Qed.

Lemma commands_logs {A} (line : A -> string) items :
  commands (map (fun x => EvLog (line x)) items) = [].
Proof. induction items; cbn; auto. Qed.







(** ** When a section asks, and what a dry run shows *)

Lemma questions_app e1 e2 : questions (e1 ++ e2) = questions e1 ++ questions e2.
Proof. unfold questions. apply flat_map_app. Qed.

Lemma quiet_questions deletes evs :
  Forall (permits false deletes) evs -> questions evs = [].
Proof.
  induction 1 as [ | e rest He _ IH]; [reflexivity | ].
  destruct e; cbn in *; auto. discriminate He.
Qed.

Section Listing.

Variable w : World.

Lemma mergedSection_shape dryRun force :
  mergedSection w dryRun force =
    listingSection w mergedTitle (getMergedBranches w)
                   (c dim ("   No merged branches to clean up" ++ nl)%string)
                   (fun merged =>
                      c dim ("   Found " ++ showNat (length merged)
                               ++ " merged branch(es):" ++ nl)%string)
                   (fun b => ("   " ++ c yellow "•" ++ " " ++ b)%string)
                   "merged" false (fun l => l) dryRun force.
Proof. reflexivity. Qed.

Lemma staleSection_shape dryRun force days :
  staleSection w dryRun force days =
    listingSection w (staleTitle days) (getStaleBranches w days)
                   (c dim ("   No stale branches found" ++ nl)%string)
                   (fun stale =>
                      c dim ("   Found " ++ showNat (length stale)
                               ++ " stale branch(es):" ++ nl)%string)
                   (fun s => ("   " ++ c yellow "•" ++ " " ++ branch s ++ " "
                                ++ c dim ("(" ++ toString (daysAgo s) ++ " days ago)"))%string)
                   "stale" true (map branch) dryRun force.
Proof. reflexivity. Qed.

Lemma goneSection_shape dryRun force :
  goneSection w dryRun force =
    listingSection w goneTitle (getGoneBranches w)
                   (c dim ("   No gone branches found" ++ nl)%string)
                   (fun gone =>
                      c dim ("   Found " ++ showNat (length gone)
                               ++ " gone branch(es):" ++ nl)%string)
                   (fun b => ("   " ++ c yellow "•" ++ " " ++ b)%string)
                   "gone" true (fun l => l) dryRun force.
Proof. reflexivity. Qed.

Lemma deletePhase_questions dryRun force kind mode branches h :
  exists evs,
    deletePhase w dryRun force kind mode branches h = (Ok tt, h ++ evs) /\
    questions evs =
      if negb dryRun && negb force
      then [deleteQuestion kind (length branches)]
      else [].
Proof.
  unfold deletePhase. destruct dryRun; cbn [negb andb].
  { exists []. cbn. rewrite app_nil_r. auto. }
  destruct force; cbn [negb].
  - unfold bind at 1, ret. unfold bind, log, emit.
    destruct (deleteLoop_run w mode branches O h) as (evs & E & _ & Hq).
    rewrite E. eexists. rewrite <- app_assoc. split; [reflexivity | ].
    rewrite questions_app, (quiet_questions _ _ Hq). reflexivity.
  - unfold bind at 1, confirm.
    set (q := deleteQuestion kind (length branches)).
    destruct (affirmative (readLine w h q)).
    + unfold bind, log, emit.
      destruct (deleteLoop_run w mode branches O (h ++ [EvPrompt q (readLine w h q)]))
        as (evs & E & _ & Hq).
      rewrite E. eexists. repeat rewrite <- app_assoc. split; [reflexivity | ].
      cbn [app]. change (questions (EvPrompt q ?a :: ?l)) with (q :: questions l).
      rewrite questions_app, (quiet_questions _ _ Hq). reflexivity.
    + cbn. eexists. split; reflexivity.
Qed.

Context {A : Type}.
Variables (title : string) (enum : M (list A)) (none : string)
          (found : list A -> string) (line : A -> string) (kind : string)
          (mode : bool) (names : list A -> list string).
Hypothesis enum_quiet : sat (permits false noDeletes) uncaught enum.

Lemma questions_logs items : questions (map (fun x : A => EvLog (line x)) items) = [].
Proof. induction items; cbn; auto. Qed.

Lemma listingSection_unfold dryRun force h :
  listingSection w title enum none found line kind mode names dryRun force h =
    match enum (h ++ [EvLog title]) with
    | (Ok items, h1) =>
        if Nat.eqb (length items) 0
        then (Ok tt, h1 ++ [EvLog none])
        else deletePhase w dryRun force kind mode (names items)
                         (h1 ++ EvLog (found items)
                             :: map (fun y => EvLog (line y)) items
                             ++ [EvLog EmptyString])
    | (Thrown msg, h1) => (Thrown msg, h1)
    | (Exited code, h1) => (Exited code, h1)
    end.
Proof.
  unfold listingSection. unfold bind at 1, log at 1, emit. unfold bind at 1.
  destruct (enum (h ++ [EvLog title])) as [[items | msg | code] h1]; try reflexivity.
  destruct (Nat.eqb (length items) 0); [reflexivity | ].
  unfold bind at 1, log at 1, emit. unfold bind at 1. rewrite logEach_run.
  unfold bind at 1, log at 1, emit.
  repeat (rewrite <- app_assoc; cbn [app]). reflexivity.
Qed.

Lemma listingSection_questions dryRun force h items h1 :
  enum (h ++ [EvLog title]) = (Ok items, h1) ->
  exists evs,
    listingSection w title enum none found line kind mode names dryRun force h
    = (Ok tt, h ++ evs) /\
    questions evs =
      if negb dryRun && negb force && negb (Nat.eqb (length items) 0)
      then [deleteQuestion kind (length (names items))]
      else [].
Proof.
  intros He.
  destruct (enum_quiet (h ++ [EvLog title])) as (e1 & E1 & Q1 & _).
  rewrite He in E1. cbn in E1. subst h1.
  pose proof (quiet_questions _ _ Q1) as Hq1.
  rewrite listingSection_unfold, He.
  destruct (Nat.eqb (length items) 0).
  - exists (EvLog title :: e1 ++ [EvLog none]).
    split; [repeat (rewrite <- app_assoc; cbn [app]); reflexivity | ].
    change (questions (EvLog ?t :: ?l)) with (questions l).
    rewrite questions_app, Hq1, andb_false_r. reflexivity.
  - match goal with
    | |- context [deletePhase w dryRun force kind mode ?bs ?hq] =>
        destruct (deletePhase_questions dryRun force kind mode bs hq) as (e2 & E2 & Hq2)
    end.
    rewrite E2.
    exists (EvLog title :: e1 ++ EvLog (found items)
              :: map (fun y => EvLog (line y)) items ++ EvLog EmptyString :: e2).
    split; [repeat (rewrite <- app_assoc; cbn [app]); reflexivity | ].
    change (questions (EvLog ?t :: ?l)) with (questions l).
    rewrite questions_app, Hq1. cbn [app].
    change (questions (EvLog ?t :: ?l)) with (questions l).
    rewrite questions_app, questions_logs. cbn [app].
    change (questions (EvLog ?t :: ?l)) with (questions l).
    rewrite Hq2, andb_true_r. reflexivity.
Qed.

Lemma listingSection_dry force h :
  exists evs extra,
    snd (listingSection w title enum none found line kind mode names true force h)
    = h ++ evs /\
    snd (listingSection w title enum none found line kind mode names false force h)
    = h ++ evs ++ extra /\
    fst (listingSection w title enum none found line kind mode names true force h)
    = fst (listingSection w title enum none found line kind mode names false force h) /\
    deleteCalls evs = [] /\ questions evs = [].
Proof.
  destruct (enum_quiet (h ++ [EvLog title])) as (e1 & E1 & Q1 & O1).
  destruct (quiet_deleteCalls _ _ Q1) as [C1 _].
  pose proof (quiet_questions _ _ Q1) as Hq1.
  rewrite !listingSection_unfold.
  destruct (enum (h ++ [EvLog title])) as [[items | msg | code] h1];
    cbn in E1, O1; subst h1; [ | | contradiction].
  - destruct (Nat.eqb (length items) 0).
    + exists (EvLog title :: e1 ++ [EvLog none]), [].
      cbn [fst snd]. rewrite app_nil_r.
      split; [repeat (rewrite <- app_assoc; cbn [app]); reflexivity | ].
      split; [repeat (rewrite <- app_assoc; cbn [app]); reflexivity | ].
      split; [reflexivity | ]. split.
      * cbn [deleteCalls isDelete]. rewrite deleteCalls_app, C1. reflexivity.
      * change (questions (EvLog ?t :: ?l)) with (questions l).
        rewrite questions_app, Hq1. reflexivity.
    + match goal with
      | |- context [deletePhase w false force kind mode ?bs ?hq] =>
          destruct (deletePhase_run w false force kind mode bs hq) as (e2 & E2 & _);
          rewrite E2
      end.
      unfold deletePhase. cbn [negb]. unfold ret. cbn [fst snd].
      exists (EvLog title :: e1 ++ EvLog (found items)
                :: map (fun y => EvLog (line y)) items ++ [EvLog EmptyString]), e2.
      split; [repeat (rewrite <- app_assoc; cbn [app]); reflexivity | ].
      split; [repeat (rewrite <- app_assoc; cbn [app]); reflexivity | ].
      split; [reflexivity | ]. split.
      * cbn [deleteCalls isDelete]. rewrite deleteCalls_app, C1. cbn [app].
        cbn [deleteCalls isDelete]. rewrite deleteCalls_app.
        assert (Hl : forall l : list A, deleteCalls (map (fun y => EvLog (line y)) l) = [])
          by (induction l; cbn; auto).
        rewrite Hl. reflexivity.
      * change (questions (EvLog ?t :: ?l)) with (questions l).
        rewrite questions_app, Hq1. cbn [app].
        change (questions (EvLog ?t :: ?l)) with (questions l).
        rewrite questions_app, questions_logs. reflexivity.
  - exists (EvLog title :: e1), []. cbn [fst snd]. rewrite app_nil_r.
    split; [repeat (rewrite <- app_assoc; cbn [app]); reflexivity | ].
    split; [repeat (rewrite <- app_assoc; cbn [app]); reflexivity | ].
    split; [reflexivity | ]. split.
    + cbn [deleteCalls isDelete]. exact C1.
    + exact Hq1.
Qed.

End Listing.

(** X12.  A section whose enumeration returns asks at most one question: the
    one that names the number of branches found, and only when dry-run is
    unset, force is unset and at least one branch was found. *)
Theorem asks_only_when_needed (w : World) (dryRun force : bool) (h : history) :
  (forall merged h1,
      getMergedBranches w (h ++ [EvLog mergedTitle]) = (Ok merged, h1) ->
      exists evs,
        mergedSection w dryRun force h = (Ok tt, h ++ evs) /\
        questions evs =
          if negb dryRun && negb force && negb (Nat.eqb (length merged) 0)
          then [deleteQuestion "merged" (length merged)]
          else []) /\
  (forall days stale h1,
      getStaleBranches w days (h ++ [EvLog (staleTitle days)]) = (Ok stale, h1) ->
      exists evs,
        staleSection w dryRun force days h = (Ok tt, h ++ evs) /\
        questions evs =
          if negb dryRun && negb force && negb (Nat.eqb (length stale) 0)
          then [deleteQuestion "stale" (length stale)]
          else []) /\
  (forall gone h1,
      getGoneBranches w (h ++ [EvLog goneTitle]) = (Ok gone, h1) ->
      exists evs,
        goneSection w dryRun force h = (Ok tt, h ++ evs) /\
        questions evs =
          if negb dryRun && negb force && negb (Nat.eqb (length gone) 0)
          then [deleteQuestion "gone" (length gone)]
          else []).
Proof.
  split; [ | split].
  - intros merged h1 He. rewrite mergedSection_shape.
    exact (listingSection_questions w mergedTitle (getMergedBranches w) _ _ _
                                    "merged" false (fun l => l)
                                    (getMergedBranches_sat w)
                                    dryRun force h merged h1 He).
  - intros days stale h1 He. rewrite staleSection_shape.
    destruct (listingSection_questions w _ _
                (c dim ("   No stale branches found" ++ nl)%string)
                (fun stale =>
                   c dim ("   Found " ++ showNat (length stale)
                            ++ " stale branch(es):" ++ nl)%string)
                (fun s => ("   " ++ c yellow "•" ++ " " ++ branch s ++ " "
                             ++ c dim ("(" ++ toString (daysAgo s) ++ " days ago)"))%string)
                "stale" true (map branch) (getStaleBranches_sat w days)
                dryRun force h stale h1 He) as (evs & E & Hq).
    exists evs. split; [exact E | ]. rewrite length_map in Hq. exact Hq.
  - intros gone h1 He. rewrite goneSection_shape.
    exact (listingSection_questions w goneTitle (getGoneBranches w) _ _ _
                                    "gone" true (fun l => l)
                                    (getGoneBranches_sat w)
                                    dryRun force h gone h1 He).
Qed.

Lemma asks_only_when_needed_witness :
  exists evs,
    mergedSection (Demo.repo "n") false false [] = (Ok tt, [] ++ evs) /\
    questions evs = ["   Delete 2 merged branch(es)? [y/N] "]%string.
Proof.
  destruct (asks_only_when_needed (Demo.repo "n") false false []) as (Hm & _).
  apply (Hm ["feature/a"; "feature/b"]%string
            (snd (getMergedBranches (Demo.repo "n") ([] ++ [EvLog mergedTitle])))).
  reflexivity.
Defined.

(** X13.  For each section, a dry run appends exactly what the real run
    appends before its deletion phase, with the same outcome: the real run's
    events are the dry run's events followed by those of the deletion phase.
    The dry run's events hold no question and no deletion. *)
Theorem dry_run_is_a_prefix (w : World) (force : bool) (h : history) :
  (exists evs extra,
      snd (mergedSection w true force h) = h ++ evs /\
      snd (mergedSection w false force h) = h ++ evs ++ extra /\
      fst (mergedSection w true force h) = fst (mergedSection w false force h) /\
      deleteCalls evs = [] /\ questions evs = []) /\
  (forall days, exists evs extra,
      snd (staleSection w true force days h) = h ++ evs /\
      snd (staleSection w false force days h) = h ++ evs ++ extra /\
      fst (staleSection w true force days h) = fst (staleSection w false force days h) /\
      deleteCalls evs = [] /\ questions evs = []) /\
  (exists evs extra,
      snd (goneSection w true force h) = h ++ evs /\
      snd (goneSection w false force h) = h ++ evs ++ extra /\
      fst (goneSection w true force h) = fst (goneSection w false force h) /\
      deleteCalls evs = [] /\ questions evs = []).
Proof.
  split; [ | split].
  - rewrite !mergedSection_shape.
    apply listingSection_dry. apply getMergedBranches_sat.
  - intros days. rewrite !staleSection_shape.
    apply listingSection_dry. apply getStaleBranches_sat.
  - rewrite !goneSection_shape.
    apply listingSection_dry. apply getGoneBranches_sat.
Qed.

(** ** Consent *)

Lemma consented_quiet prompts evs :
  Forall (permits prompts noDeletes) evs -> consented evs.
Proof.
  intros H Hd. destruct (quiet_deleteCalls _ _ H) as [Hc _]. contradiction.
Qed.

Lemma consented_app e1 e2 : consented e1 -> consented e2 -> consented (e1 ++ e2).
Proof.
  unfold consented. intros H1 H2 Hd. rewrite deleteCalls_app in Hd.
  apply Exists_app. destruct (deleteCalls e1) as [ | x l].
  - right. apply H2. exact Hd.
  - left. apply H1. discriminate.
Qed.

Lemma appending_bind {A B} (m : M A) (k : A -> M B) :
  appending consented m -> (forall a, appending consented (k a)) ->
  appending consented (bind m k).
Proof.
  intros Hm Hk h. unfold bind.
  destruct (Hm h) as (e1 & E1 & Q1).
  destruct (m h) as [o h1]. cbn in E1. subst h1.
  destruct o as [a | msg | code]; [ | exists e1; auto | exists e1; auto].
  destruct (Hk a (h ++ e1)) as (e2 & E2 & Q2).
  exists (e1 ++ e2). rewrite E2, app_assoc. split; [reflexivity | ].
  apply consented_app; assumption.
Qed.

Lemma appending_of_sat {A} F (m : M A) :
  sat (permits false noDeletes) F m -> appending consented m.
Proof.
  intros Hs h. destruct (Hs h) as (evs & E & Pe & _).
  exists evs. split; [exact E | eapply consented_quiet; exact Pe].
Qed.

Lemma appending_log line : appending consented (log line).
Proof.
  apply (appending_of_sat anyFailure). apply sat_emit. exact I.
Qed.

Section Consent.

Variable w : World.

Lemma deletePhase_consented dryRun kind mode branches :
  appending consented (deletePhase w dryRun false kind mode branches).
Proof.
  intros h. unfold deletePhase. destruct dryRun; cbn [negb].
  { exists []. cbn. rewrite app_nil_r. split; [reflexivity | ]. intros H. contradiction H. reflexivity. }
  unfold bind at 1, confirm.
  set (q := deleteQuestion kind (length branches)).
  destruct (affirmative (readLine w h q)) eqn:Ha.
  - unfold bind, log, emit.
    destruct (deleteLoop_run w mode branches O (h ++ [EvPrompt q (readLine w h q)]))
      as (evs & E & _ & _).
    rewrite E. eexists. repeat rewrite <- app_assoc. split; [reflexivity | ].
    intros _. cbn [app]. apply Exists_cons_hd. exact Ha.
  - exists [EvPrompt q (readLine w h q)]. cbn [fst snd]. split; [reflexivity | ].
    intros H. contradiction H. reflexivity.
Qed.

Lemma listingSection_consented {A} title (enum : M (list A)) none found line kind mode
      names dryRun :
  sat (permits false noDeletes) uncaught enum ->
  appending consented
            (listingSection w title enum none found line kind mode names dryRun false).
Proof.
  intros Hq. unfold listingSection.
  apply appending_bind; [apply appending_log | intros _].
  apply appending_bind; [apply (appending_of_sat uncaught); exact Hq | intros items].
  destruct (Nat.eqb (length items) 0); [apply appending_log | ].
  apply appending_bind; [apply appending_log | intros _].
  apply appending_bind;
    [apply (appending_of_sat anyFailure); apply logEach_sat; intros; exact I | intros _].
  apply appending_bind; [apply appending_log | intros _].
  apply deletePhase_consented.
Qed.

Lemma cleanup_consented args :
  argsInclude "--force" args = false -> appending consented (cleanup w args).
Proof.
  intros Hf. unfold cleanup. rewrite Hf.
  apply appending_bind; [apply appending_log | intros _].
  apply appending_bind.
  { unfold when. destruct (_ || _); [ | apply (appending_of_sat anyFailure), sat_ret].
    rewrite mergedSection_shape. apply listingSection_consented, getMergedBranches_sat. }
  intros _. apply appending_bind.
  { unfold when. destruct (_ || _); [ | apply (appending_of_sat anyFailure), sat_ret].
    rewrite staleSection_shape. apply listingSection_consented, getStaleBranches_sat. }
  intros _. apply appending_bind.
  { unfold when. destruct (_ || _); [ | apply (appending_of_sat anyFailure), sat_ret].
    rewrite goneSection_shape. apply listingSection_consented, getGoneBranches_sat. }
  intros _. apply appending_bind.
  { unfold when. destruct (_ || _); [ | apply (appending_of_sat anyFailure), sat_ret].
    apply (appending_of_sat uncaught), largeSection_sat. }
  intros _. apply appending_bind.
  { unfold when. destruct (commandIs _ _);
      [ | apply (appending_of_sat anyFailure), sat_ret].
    apply (appending_of_sat uncaught), pruneSection_sat. }
  intros _. apply appending_log.
Qed.

End Consent.

Lemma argsInclude_false x args : ~ In x args -> argsInclude x args = false.
Proof.
  intros Hn. unfold argsInclude. destruct (existsb (String.eqb x) args) eqn:E; [ | reflexivity].
  apply existsb_exists in E. destruct E as (y & Hy & Heq).
  apply String.eqb_eq in Heq. subst y. contradiction.
Qed.

(** X14.  Without [--force] among the arguments, a run that executes a
    branch deletion holds a question that the user answered with a line
    starting with "y" or "Y". *)
Theorem deletion_needs_consent (w : World) (args : list string) :
  ~ In "--force"%string args ->
  deleteCalls (snd (program w args)) <> [] ->
  Exists accepted (snd (program w args)).
Proof.
  intros Hn. apply argsInclude_false in Hn. unfold program.
  destruct (wantsHelp (nth_error args 0)) eqn:Hh.
  { rewrite main_help by exact Hh. cbn. intros H. contradiction H. reflexivity. }
  destruct (execSync w [] revParse) as [out | message] eqn:E.
  - rewrite (main_inside w args [] out Hh E).
    destruct (cleanup_consented w args Hn ([] ++ [EvExec revParse (ExecOk out)]))
      as (evs & Es & Hc).
    destruct (cleanup w args _) as [[u | msg | code] hx]; cbn [fst snd] in *; subst hx;
      cbn [app]; cbn [deleteCalls isDelete];
      change (deleteFlag revParse) with (@None bool); cbn iota;
      try rewrite deleteCalls_app; cbn [deleteCalls isDelete]; try rewrite app_nil_r;
      intros Hd; apply Exists_cons_tl; try (apply Exists_app; left); apply Hc; exact Hd.
  - rewrite (main_outside w args [] message Hh E). cbn.
    intros H. contradiction H. reflexivity.
Qed.

Lemma deletion_needs_consent_witness :
  Exists accepted (snd (program (Demo.repo "yes") ["merged"]%string)).
Proof.
  apply (deletion_needs_consent (Demo.repo "yes") ["merged"]%string).
  - cbn. intros [H | []]. discriminate H.
  - vm_compute. discriminate.
Defined.

(** ** The colour of a large file *)

Lemma lacks_app a s t : lacks a (s ++ t)%string = lacks a s && lacks a t.
Proof.
  induction s as [ | b s IH]; cbn [append lacks]; [reflexivity | ].
  rewrite IH, andb_assoc. reflexivity.
Qed.

Lemma lacks_includes_MB s : lacks "M" s = true -> includes "MB" s = false.
Proof.
  induction s as [ | b s IH]; cbn [lacks includes startsWith]; [reflexivity | ].
  intros H. apply andb_prop in H. destruct H as (Hb & Hs).
  apply negb_true_iff in Hb. rewrite Hb, (IH Hs). reflexivity.
Qed.

Lemma includes_app_r sub s t : includes sub t = true -> includes sub (s ++ t)%string = true.
Proof.
  intros H. induction s as [ | b s IH]; cbn [append]; [exact H | ].
  cbn [includes]. rewrite IH. apply orb_true_r.
Qed.

Lemma lacks_digits (a : ascii) d :
  (forall k, In k ["0"; "1"; "2"; "3"; "4"; "5"; "6"; "7"; "8"; "9"; "-"]%char ->
             Ascii.eqb a k = false) ->
  lacks a (NilEmpty.string_of_uint d) = true.
Proof.
  intros Ha. induction d; cbn [NilEmpty.string_of_uint lacks]; [reflexivity | ..];
    rewrite IHd, Ha by (cbn; tauto); reflexivity.
Qed.

Lemma lacks_number (a : ascii) z :
  (forall k, In k ["0"; "1"; "2"; "3"; "4"; "5"; "6"; "7"; "8"; "9"; "-"]%char ->
             Ascii.eqb a k = false) ->
  lacks a (NilZero.string_of_int (Z.to_int z)) = true.
Proof.
  intros Ha.
  assert (Hu : forall d, lacks a (NilZero.string_of_uint d) = true).
  { intros d. destruct d; try exact (lacks_digits a _ Ha).
    cbn. rewrite Ha by (cbn; tauto). reflexivity. }
  unfold NilZero.string_of_int. destruct (Z.to_int z) as [d | d]; [apply Hu | ].
  cbn [lacks]. rewrite Hu, Ha by (cbn; tauto). reflexivity.
Qed.

Lemma lacks_int z : lacks "M" (NilZero.string_of_int (Z.to_int z)) = true.
Proof.
  apply lacks_number. intros k Hk. cbn in Hk.
  repeat (destruct Hk as [<- | Hk]; [reflexivity | ]). contradiction.
Qed.

Lemma lacks_toFixed1 n d : lacks "M" (toFixed1 n d) = true.
Proof.
  unfold toFixed1. cbv zeta. rewrite !lacks_app, !lacks_int. reflexivity.
Qed.

(** X15.  The size text of a large file contains "MB", which is what makes
    [main] print it in red, exactly when the parsed size is a number above
    1048576 bytes; sizes up to 1024 bytes are printed in bytes and the sizes
    in between in KB. *)
Theorem red_marks_files_over_one_mebibyte (line : string) :
  let f := largeFileOfLine line in
  (includes "MB" (sizeStr f) = true <-> gt (size f) (Num (1024 * 1024)) = true) /\
  (includes "KB" (sizeStr f) = true <->
   gt (size f) (Num 1024) = true /\ gt (size f) (Num (1024 * 1024)) = false).
Proof.
  cbv zeta. unfold largeFileOfLine. cbn [sizeStr size].
  destruct (parseInt (nth_error (splitWhite line) 1)) as [ | n];
    [cbn; split; split; intros H; try discriminate H; destruct H; discriminate | ].
  assert (HK : forall s, lacks "K" s = true -> includes "KB" s = false).
  { induction s as [ | b s IH]; cbn [lacks includes startsWith]; [reflexivity | ].
    intros H. apply andb_prop in H. destruct H as (Hb & Hs).
    apply negb_true_iff in Hb. rewrite Hb, (IH Hs). reflexivity. }
  assert (HKi : forall z, lacks "K" (NilZero.string_of_int (Z.to_int z)) = true).
  { intros z. apply lacks_number. intros k Hk. cbn in Hk.
    repeat (destruct Hk as [<- | Hk]; [reflexivity | ]). contradiction. }
  destruct (gt (Num n) (Num (1024 * 1024))) eqn:Hm.
  - split.
    + split; [reflexivity | intros _; apply includes_app_r; reflexivity].
    + split; [ | intros (_ & H); discriminate H].
      intros H. rewrite HK in H; [discriminate H | ].
      unfold toFixed1. cbv zeta. rewrite !lacks_app, !HKi. reflexivity.
  - destruct (gt (Num n) (Num 1024)) eqn:Hk.
    + split.
      * split; [ | discriminate].
        intros H. rewrite lacks_includes_MB in H; [discriminate H | ].
        rewrite lacks_app, lacks_toFixed1. reflexivity.
      * split; [auto | intros _; apply includes_app_r; reflexivity].
    + split.
      * split; [ | discriminate].
        intros H. rewrite lacks_includes_MB in H; [discriminate H | ].
        unfold toString. rewrite lacks_app, lacks_int. reflexivity.
      * split; [ | intros (H & _); discriminate H].
        intros H. rewrite HK in H; [discriminate H | ].
        unfold toString. rewrite lacks_app, HKi. reflexivity.
Qed.

(** ** Where a failure stops the run *)

Lemma guardedEvent_failure cmd message :
  guardedEvent (EvExec cmd (ExecError message)) -> ~ In cmd unguarded.
Proof.
  cbn [guardedEvent]. intros H Hin.
  assert (Ht : existsb (String.eqb cmd) unguarded = true)
    by (apply existsb_exists; exists cmd; split; [exact Hin | apply String.eqb_refl]).
  rewrite H in Ht. discriminate Ht.
Qed.

Section Halting.

Context {A B : Type}.

Lemma halts_ret (a : A) : halts (ret a).
Proof. intros h. exists []. cbn. rewrite app_nil_r. auto. Qed.

Lemma halts_bind (m : M A) (k : A -> M B) :
  halts m -> (forall a, halts (k a)) -> halts (bind m k).
Proof.
  intros Hm Hk h. unfold bind.
  destruct (Hm h) as (e1 & E1 & O1).
  destruct (m h) as [o h1]. cbn in E1, O1. subst h1.
  destruct o as [a | msg | code]; [ | | contradiction].
  - destruct (Hk a (h ++ e1)) as (e2 & E2 & O2).
    exists (e1 ++ e2). rewrite E2, app_assoc. split; [reflexivity | ].
    destruct (fst (k a (h ++ e1))) as [b | msg | code]; [ | | contradiction].
    + apply Forall_app. auto.
    + destruct O2 as (pre & cmd & -> & Hin & Hp).
      exists (e1 ++ pre), cmd. rewrite app_assoc.
      repeat split; auto. apply Forall_app. auto.
  - exists e1. cbn. auto.
Qed.

Lemma halts_tryCatch F0 (m : M A) (handler : string -> M A) :
  sat guardedEvent F0 m -> (forall msg, halts (handler msg)) ->
  halts (tryCatch m handler).
Proof.
  intros Hm Hh h. unfold tryCatch.
  destruct (Hm h) as (e1 & E1 & P1 & O1).
  destruct (m h) as [o h1]. cbn in E1, O1. subst h1.
  destruct o as [a | msg | code]; [ | | contradiction].
  - exists e1. cbn. auto.
  - destruct (Hh msg (h ++ e1)) as (e2 & E2 & O2).
    exists (e1 ++ e2). rewrite E2, app_assoc. split; [reflexivity | ].
    destruct (fst (handler msg (h ++ e1))) as [b | msg' | code]; [ | | contradiction].
    + apply Forall_app. auto.
    + destruct O2 as (pre & cmd & -> & Hin & Hp).
      exists (e1 ++ pre), cmd. rewrite app_assoc.
      repeat split; auto. apply Forall_app. auto.
Qed.

Lemma halts_of_sat (m : M A) : sat guardedEvent noThrow m -> halts m.
Proof.
  intros Hs h. destruct (Hs h) as (evs & E & Pe & O).
  exists evs. split; [exact E | ].
  destruct (fst (m h)); auto.
  apply Exists_exists in O. destruct O as (e & _ & []).
Qed.

End Halting.

(** Under [halts], the failure of an unguarded call is never survived: the
    computation throws its message, and the call is its last event. *)
Lemma halts_stops {A} (m : M A) h evs cmd message :
  halts m -> snd (m h) = h ++ evs ->
  In cmd unguarded -> In (EvExec cmd (ExecError message)) evs ->
  fst (m h) = Thrown message /\
  exists pre, evs = pre ++ [EvExec cmd (ExecError message)].
Proof.
  intros Hm E Hin Hev. destruct (Hm h) as (evs' & E' & O).
  rewrite E in E'. apply app_inv_head in E'. subst evs'.
  assert (Hbad : Forall guardedEvent evs -> False).
  { intros Hf. rewrite Forall_forall in Hf. specialize (Hf _ Hev).
    exact (guardedEvent_failure _ _ Hf Hin). }
  destruct (fst (m h)) as [u | msg | code];
    [destruct (Hbad O) | | destruct O].
  destruct O as (pre & cmd' & -> & _ & Hp).
  apply in_app_or in Hev. destruct Hev as [Hev | [Hev | []]].
  - rewrite Forall_forall in Hp. specialize (Hp _ Hev).
    destruct (guardedEvent_failure _ _ Hp Hin).
  - injection Hev as -> ->. split; [reflexivity | exists pre; reflexivity].
Qed.

Lemma halts_run_unguarded (w : World) cmd :
  In cmd unguarded -> halts (run w cmd quiet).
Proof.
  intros Hin h. unfold run. cbn [ignoreError quiet].
  destruct (execSync w h cmd) as [out | msg].
  - exists [EvExec cmd (ExecOk out)]. cbn [fst snd].
    split; [reflexivity | repeat constructor].
  - exists [EvExec cmd (ExecError msg)]. cbn [fst snd]. split; [reflexivity | ].
    exists [], cmd. repeat split; auto.
Qed.

Ltac guard_side :=
  match goal with
  | |- forall _, _ => intros; guard_side
  | |- _ -> _ => intros; guard_side
  | |- guardedEvent (EvExec _ ?res) => destruct res; [exact I | reflexivity]
  | |- guardedEvent _ => exact I
  | |- anyFailure _ _ => exact I
  | H : ignoreError _ = false |- _ => solve [cbn in H; discriminate H]
  end.

Ltac guard_step :=
  match goal with
  | |- sat _ _ (ret _) => apply sat_ret
  | |- sat _ _ (bind _ _) => apply sat_bind; [ | intros ? ]
  | |- sat _ _ (log _) => apply sat_emit; exact I
  | |- sat _ _ (emit _) => apply sat_emit; exact I
  | |- sat _ _ (now _) => apply sat_now
  | |- sat _ _ (run _ _ _) => apply sat_run; guard_side
  | |- sat _ _ (tryCatch _ _) =>
      apply (sat_tryCatch _ _ anyFailure); [ | intros ? ]
  | |- sat _ _ (if ?b then _ else _) => destruct b
  | |- sat _ _ (match ?o with Some _ => _ | None => _ end) => destruct o
  end.

Ltac halt_step :=
  match goal with
  | |- halts (ret _) => apply halts_ret
  | |- halts (bind _ _) => apply halts_bind; [ | intros ? ]
  | |- halts (log _) => apply halts_of_sat, sat_emit; exact I
  | |- halts (now _) => apply halts_of_sat, sat_now
  | |- halts (run _ _ quiet) => apply halts_run_unguarded; cbn; tauto
  | |- halts (run _ _ quietIgnore) => apply halts_of_sat, sat_run; guard_side
  | |- halts (tryCatch _ _) =>
      apply (halts_tryCatch anyFailure); [repeat guard_step | intros ? ]
  | |- halts (if ?b then _ else _) => destruct b
  | |- halts (match ?o with Some _ => _ | None => _ end) => destruct o
  end.

Section Stops.

Variable w : World.

Lemma getDefaultBranch_halts : halts (getDefaultBranch w).
Proof. unfold getDefaultBranch. repeat halt_step. Qed.

Lemma getMergedBranches_halts : halts (getMergedBranches w).
Proof. unfold getMergedBranches. repeat halt_step. apply getDefaultBranch_halts. Qed.

Lemma staleLoop_guarded cutoff branches :
  forall stale, sat guardedEvent noThrow (staleLoop w cutoff branches stale).
Proof.
  induction branches as [ | b rest IH]; intros stale; cbn [staleLoop].
  - apply sat_ret.
  - apply sat_bind; [unfold staleStep; repeat guard_step | intros stale'; apply IH].
Qed.

Lemma getStaleBranches_halts days : halts (getStaleBranches w days).
Proof.
  unfold getStaleBranches. repeat halt_step.
  - apply getDefaultBranch_halts.
  - apply halts_of_sat, staleLoop_guarded.
Qed.

Lemma getGoneBranches_halts : halts (getGoneBranches w).
Proof. unfold getGoneBranches. repeat halt_step. Qed.

Lemma getLargeFiles_guarded count : sat guardedEvent noThrow (getLargeFiles w count).
Proof. unfold getLargeFiles. repeat guard_step. Qed.

Lemma deleteLoop_guarded mode branches :
  forall deleted, sat guardedEvent noThrow (deleteLoop w mode branches deleted).
Proof.
  induction branches as [ | b rest IH]; intros deleted; cbn [deleteLoop].
  - apply sat_ret.
  - apply sat_bind.
    + unfold deleteBranch. destruct mode; repeat guard_step.
    + intros [ | ]; (apply sat_bind; [apply sat_emit; exact I | intros _; apply IH]).
Qed.

Lemma deletePhase_guarded dryRun force kind mode branches :
  sat guardedEvent noThrow (deletePhase w dryRun force kind mode branches).
Proof.
  unfold deletePhase. destruct dryRun; cbn [negb]; [apply sat_ret | ].
  apply sat_bind.
  - destruct force; [apply sat_ret | apply sat_confirm; intros; exact I].
  - intros [ | ]; [ | apply sat_ret].
    apply sat_bind; [apply deleteLoop_guarded | intros deleted; apply sat_emit; exact I].
Qed.

Lemma listingSection_halts {A} title (enum : M (list A)) none found line kind mode
      names dryRun force :
  halts enum ->
  halts (listingSection w title enum none found line kind mode names dryRun force).
Proof.
  intros He. unfold listingSection.
  apply halts_bind; [halt_step | intros _].
  apply halts_bind; [exact He | intros items].
  destruct (Nat.eqb (length items) 0); [halt_step | ].
  apply halts_bind; [halt_step | intros _].
  apply halts_bind; [apply halts_of_sat, logEach_sat; intros; exact I | intros _].
  apply halts_bind; [halt_step | intros _].
  apply halts_of_sat, deletePhase_guarded.
Qed.

Lemma largeSection_guarded top : sat guardedEvent noThrow (largeSection w top).
Proof.
  unfold largeSection. apply sat_bind; [apply sat_emit; exact I | intros _].
  apply sat_bind; [apply getLargeFiles_guarded | intros large].
  destruct (Nat.eqb (length large) 0); [apply sat_emit; exact I | ].
  apply sat_bind; [apply sat_emit; exact I | intros _].
  apply sat_bind; [apply logEach_sat; intros; exact I | intros _].
  apply sat_emit. exact I.
Qed.

Lemma pruneSection_guarded : sat guardedEvent noThrow (pruneSection w).
Proof. unfold pruneSection. repeat guard_step. Qed.

Lemma cleanup_halts args : halts (cleanup w args).
Proof.
  unfold cleanup.
  apply halts_bind; [halt_step | intros _].
  apply halts_bind.
  { unfold when. destruct (_ || _); [ | apply halts_ret].
    rewrite mergedSection_shape. apply listingSection_halts, getMergedBranches_halts. }
  intros _. apply halts_bind.
  { unfold when. destruct (_ || _); [ | apply halts_ret].
    rewrite staleSection_shape. apply listingSection_halts, getStaleBranches_halts. }
  intros _. apply halts_bind.
  { unfold when. destruct (_ || _); [ | apply halts_ret].
    rewrite goneSection_shape. apply listingSection_halts, getGoneBranches_halts. }
  intros _. apply halts_bind.
  { unfold when. destruct (_ || _); [ | apply halts_ret].
    apply halts_of_sat, largeSection_guarded. }
  intros _. apply halts_bind.
  { unfold when. destruct (commandIs _ _); [ | apply halts_ret].
    apply halts_of_sat, pruneSection_guarded. }
  intros _. halt_step.
Qed.

(** A run that returns or exits executed no failing unguarded call; a run
    that is rejected stopped at the failure of one. *)
Lemma main_halts args :
  exists evs,
    snd (main w args []) = evs /\
    match fst (main w args []) with
    | Thrown message =>
        exists pre cmd,
          evs = pre ++ [EvExec cmd (ExecError message)] /\
          In cmd unguarded /\ Forall guardedEvent pre
    | _ => Forall guardedEvent evs
    end.
Proof.
  destruct (wantsHelp (nth_error args 0)) eqn:Hh.
  { rewrite main_help by exact Hh. eexists. split; [reflexivity | ].
    cbn. repeat constructor. }
  destruct (execSync w [] revParse) as [out | message] eqn:E.
  - rewrite (main_inside w args [] out Hh E).
    destruct (cleanup_halts args ([] ++ [EvExec revParse (ExecOk out)])) as (evs & Es & O).
    eexists. split; [exact Es | ].
    destruct (fst (cleanup w args _)) as [u | msg | code]; [ | | contradiction].
    + apply Forall_app. split; [repeat constructor | exact O].
    + destruct O as (pre & cmd & -> & Hin & Hp).
      exists (([] ++ [EvExec revParse (ExecOk out)]) ++ pre), cmd.
      rewrite <- app_assoc. repeat split; auto.
      apply Forall_app. split; [repeat constructor | exact Hp].
  - rewrite (main_outside w args [] message Hh E). eexists. split; [reflexivity | ].
    cbn [fst]. repeat constructor.
Qed.

End Stops.

(** ** Failures of external calls, both ways *)

(** C3, amended.  A run is rejected only when one of the four unguarded
    calls ([git branch --show-current], [git branch -a], [git branch],
    [git branch -vv]) failed, with that failure as the error; it ends the
    process only when the repository check failed, with status 1.  Every
    other failure is absorbed: a call made with [ignoreError] yields the
    empty string, so a failed merged listing gives no merged branch and a
    failed pipeline no large file; [getLargeFiles] never throws; a failed
    [git log] leaves the stale list as it was.

    Conversely no failure of an unguarded call is caught.  Whatever the
    command, as soon as one of the four fails the run is rejected with its
    message and that call is the last thing the run did, so the sections that
    were still to come never start; the process prints the error and ends
    with status 0.  Function by function: a failed
    [git branch --show-current] makes both enumerators throw, a failed
    [git branch -a] makes [getDefaultBranch] throw, a failed [git branch]
    makes [getStaleBranches] throw and a failed [git branch -vv] makes
    [getGoneBranches] throw; and on every path, an enumerator in whose
    events one of the four calls failed has thrown that failure. *)
Theorem failures_absorbed_unless_unguarded (w : World) :
  (forall args,
      match fst (main w args []) with
      | Ok _ => True
      | Thrown message =>
          exists cmd, In cmd unguarded /\
                      In (EvExec cmd (ExecError message)) (snd (main w args []))
      | Exited code =>
          code = 1 /\ exists message, execSync w [] revParse = ExecError message
      end) /\
  (forall cmd h message,
      execSync w h cmd = ExecError message ->
      fst (run w cmd quietIgnore h) = Ok EmptyString) /\
  (forall h current h1 defaultBranch h2 message,
      run w "git branch --show-current" quiet h = (Ok current, h1) ->
      getDefaultBranch w h1 = (Ok defaultBranch, h2) ->
      execSync w h2 ("git branch --merged " ++ defaultBranch)%string = ExecError message ->
      fst (getMergedBranches w h) = Ok []) /\
  (forall count h, exists large, fst (getLargeFiles w count h) = Ok large) /\
  (forall count h message,
      execSync w h (largeFilesPipeline count) = ExecError message ->
      fst (getLargeFiles w count h) = Ok []) /\
  (forall cutoff stale b h message,
      execSync w h ("git log -1 --format=%ci " ++ b)%string = ExecError message ->
      fst (staleStep w cutoff stale b h) = Ok stale) /\
  (forall args message,
      fst (main w args []) = Thrown message ->
      (exists pre cmd,
          snd (main w args []) = pre ++ [EvExec cmd (ExecError message)] /\
          In cmd unguarded) /\
      program w args = (0, snd (main w args []) ++ [EvError message])) /\
  (forall args cmd message,
      In cmd unguarded ->
      In (EvExec cmd (ExecError message)) (snd (main w args [])) ->
      fst (main w args []) = Thrown message /\
      exists pre, snd (main w args []) = pre ++ [EvExec cmd (ExecError message)]) /\
  (forall h message,
      execSync w h "git branch --show-current" = ExecError message ->
      getMergedBranches w h
      = (Thrown message, h ++ [EvExec "git branch --show-current" (ExecError message)]) /\
      forall days,
        getStaleBranches w days h
        = (Thrown message, h ++ [EvExec "git branch --show-current" (ExecError message)])) /\
  (forall h m message,
      execSync w h "git remote" = ExecError m ->
      execSync w (h ++ [EvExec "git remote" (ExecError m)]) "git branch -a"
      = ExecError message ->
      fst (getDefaultBranch w h) = Thrown message) /\
  (forall days h current h1 defaultBranch h2 message,
      run w "git branch --show-current" quiet h = (Ok current, h1) ->
      getDefaultBranch w h1 = (Ok defaultBranch, h2) ->
      execSync w h2 "git branch" = ExecError message ->
      fst (getStaleBranches w days h) = Thrown message) /\
  (forall h o h1 message,
      run w "git fetch --prune" quietIgnore h = (o, h1) ->
      execSync w h1 "git branch -vv" = ExecError message ->
      fst (getGoneBranches w h) = Thrown message) /\
  (forall h evs cmd message,
      In cmd unguarded ->
      In (EvExec cmd (ExecError message)) evs ->
      (snd (getDefaultBranch w h) = h ++ evs ->
       fst (getDefaultBranch w h) = Thrown message) /\
      (snd (getMergedBranches w h) = h ++ evs ->
       fst (getMergedBranches w h) = Thrown message) /\
      (forall days,
          snd (getStaleBranches w days h) = h ++ evs ->
          fst (getStaleBranches w days h) = Thrown message) /\
      (snd (getGoneBranches w h) = h ++ evs ->
       fst (getGoneBranches w h) = Thrown message)).
Proof.
  repeat match goal with |- _ /\ _ => split end.
  - intros args. destruct (main_events w args []) as (evs & E & _ & O).
    destruct (fst (main w args [])); auto.
    rewrite E. cbn [app]. apply Exists_uncaught. exact O.
  - intros cmd h message E. unfold run. rewrite E. reflexivity.
  - intros h current h1 defaultBranch h2 message Hc Hd E.
    unfold getMergedBranches.
    unfold bind at 1. rewrite Hc. unfold bind at 1. rewrite Hd.
    unfold bind, run. rewrite E. reflexivity.
  - intros count h. unfold getLargeFiles, tryCatch, bind, run.
    destruct (execSync w h (largeFilesPipeline count)) as [out | message];
      cbn [ignoreError quietIgnore].
    + destruct (truthy (trim out)); eexists; reflexivity.
    + eexists; reflexivity.
  - intros count h message E. unfold getLargeFiles, tryCatch, bind, run.
    rewrite E. reflexivity.
  - intros cutoff stale b h message E. unfold staleStep, tryCatch, bind, run.
    rewrite E. reflexivity.
  - intros args message Ht. destruct (main_halts w args) as (evs & E & O).
    rewrite Ht in O. destruct O as (pre & cmd & -> & Hin & _). split.
    + exists pre, cmd. auto.
    + unfold program. destruct (main w args []) as [o hx]. cbn in Ht, E. subst o hx.
      reflexivity.
  - intros args cmd message Hin Hev. destruct (main_halts w args) as (evs & E & O).
    rewrite E in Hev. rewrite E.
    assert (Hbad : Forall guardedEvent evs -> False).
    { intros Hf. rewrite Forall_forall in Hf. specialize (Hf _ Hev).
      exact (guardedEvent_failure _ _ Hf Hin). }
    destruct (fst (main w args [])) as [u | msg | code];
      [destruct (Hbad O) | | destruct (Hbad O)].
    destruct O as (pre & cmd' & -> & _ & Hp).
    apply in_app_or in Hev. destruct Hev as [Hev | [Hev | []]].
    + rewrite Forall_forall in Hp. specialize (Hp _ Hev).
      destruct (guardedEvent_failure _ _ Hp Hin).
    + injection Hev as -> ->. split; [reflexivity | exists pre; reflexivity].
  - intros h message E. split; [ | intros days].
    + unfold getMergedBranches, bind, run. rewrite E. reflexivity.
    + unfold getStaleBranches, bind, run. rewrite E. reflexivity.
  - intros h m message Hr Hb.
    unfold getDefaultBranch. unfold bind at 1. unfold tryCatch, bind at 1, run at 1.
    rewrite Hr. cbn [ignoreError quiet ret]. unfold bind, run. rewrite Hb. reflexivity.
  - intros days h current h1 defaultBranch h2 message Hc Hd E.
    unfold getStaleBranches.
    unfold bind at 1. rewrite Hc. unfold bind at 1. rewrite Hd.
    unfold bind at 1, now. unfold bind, run. rewrite E. reflexivity.
  - intros h o h1 message Hf E.
    unfold getGoneBranches. unfold bind at 1.
    assert (Ho : exists x, o = Ok x).
    { unfold run in Hf. destruct (execSync w h _); injection Hf as <- _; eexists; reflexivity. }
    destruct Ho as (x & ->). rewrite Hf. unfold bind, run. rewrite E. reflexivity.
  - intros h evs cmd message Hin Hev.
    split; [ | split; [ | split]]; [ | | intros days | ]; intros E.
    + exact (proj1 (halts_stops _ h evs cmd message
                      (getDefaultBranch_halts w) E Hin Hev)).
    + exact (proj1 (halts_stops _ h evs cmd message
                      (getMergedBranches_halts w) E Hin Hev)).
    + exact (proj1 (halts_stops _ h evs cmd message
                      (getStaleBranches_halts w days) E Hin Hev)).
    + exact (proj1 (halts_stops _ h evs cmd message
                      (getGoneBranches_halts w) E Hin Hev)).
Qed.

Lemma failures_absorbed_unless_unguarded_witness :
  (fst (getMergedBranches Demo.maintenanceRepo []) = Ok [] /\
   fst (getLargeFiles Demo.maintenanceRepo (Num 10) []) = Ok [] /\
   fst (staleStep Demo.maintenanceRepo (Num 0) [] "maintenance" []) = Ok []) /\
  fst (main (Demo.without "git branch -vv") ["all"]%string [])
  = Thrown "Command failed: git branch -vv" /\
  fst (getStaleBranches (Demo.without "git branch") (Num 30) [])
  = Thrown "Command failed: git branch" /\
  fst (getDefaultBranch Demo.nowhere []) = Thrown "Command failed: git branch -a".
Proof.
  split; [ | split; [ | split]].
  - pose (w := Demo.maintenanceRepo).
    destruct (failures_absorbed_unless_unguarded w) as (_ & _ & Hm & _ & Hl & Hs & _).
    split; [ | split].
    + apply (Hm [] "master"%string
                (snd (run w "git branch --show-current" quiet []))
                "main"%string
                (snd (getDefaultBranch w (snd (run w "git branch --show-current" quiet []))))
                "Command failed: git branch --merged main"%string);
        reflexivity.
    + apply (Hl (Num 10) []
                ("Command failed: " ++ largeFilesPipeline (Num 10))%string).
      reflexivity.
    + apply (Hs (Num 0) [] "maintenance"%string []
                "Command failed: git log -1 --format=%ci maintenance"%string).
      reflexivity.
  - destruct (failures_absorbed_unless_unguarded (Demo.without "git branch -vv"))
      as (_ & _ & _ & _ & _ & _ & _ & Hstop & _).
    apply (Hstop ["all"]%string "git branch -vv"%string
                 "Command failed: git branch -vv"%string).
    + cbn. tauto.
    + vm_compute. repeat (first [left; reflexivity | right]).
  - pose (w := Demo.without "git branch").
    destruct (failures_absorbed_unless_unguarded w)
      as (_ & _ & _ & _ & _ & _ & _ & _ & _ & _ & Hb & _).
    apply (Hb (Num 30) [] "dev"%string
              (snd (run w "git branch --show-current" quiet []))
              "main"%string
              (snd (getDefaultBranch w (snd (run w "git branch --show-current" quiet []))))
              "Command failed: git branch"%string);
      reflexivity.
  - destruct (failures_absorbed_unless_unguarded Demo.nowhere)
      as (_ & _ & _ & _ & _ & _ & _ & _ & _ & Ha & _).
    apply (Ha [] "Command failed: git remote"%string
              "Command failed: git branch -a"%string); reflexivity.
Defined.
